(** * pumpfun-monitor-client: the SSE decoder, the connection manager and
      the session controller of [src/client.py]

    A shallow embedding of the classes [StatsManager], [FileManager],
    [SSEClient] and [PumpMonitorClient], followed by the properties of
    the line decoder, the event assembler, the liveness checks and the
    reconnect loop.

    Conventions of the embedding.
    - A Python [str] is a [string]; its characters are the code points
      below 256.
    - A Python [int] and a reading of [time.time()] are integers of [Z];
      the rounding of floating-point clock readings is not modelled.
    - A [dict] produced by [json.loads] is an association list in the
      order of first insertion; the [event_counts] dictionary is a
      [gmap].
    - Exceptions are values of [result]; a [try]/[except] is a match on
      them. *)

From Stdlib Require Import ZArith List String Ascii Bool Lia.
From stdpp Require Import gmap strings.
Import ListNotations.

Local Open Scope string_scope.
Local Open Scope Z_scope.

(** ** Python string primitives *)

Module PyStr.

(** [s.startswith(p)]. *)
Definition startswith (p s : string) : bool := String.prefix p s.

(** [s[n:]]: the slice is empty when [n] is past the end. *)
Fixpoint slice_from (n : nat) (s : string) : string :=
  match n, s with
  | O, _ => s
  | S _, EmptyString => EmptyString
  | S k, String _ r => slice_from k r
  end.

(** [c.isspace()] on the code points below 256: TAB, LF, VT, FF, CR,
    FS, GS, RS, US, SPACE, NEL and NBSP. *)
Definition isspace (c : ascii) : bool :=
  let n := nat_of_ascii c in
  (((9 <=? n) && (n <=? 13)) || ((28 <=? n) && (n <=? 32))
   || (n =? 133) || (n =? 160))%nat.

Fixpoint lstrip (s : string) : string :=
  match s with
  | EmptyString => EmptyString
  | String c r => if isspace c then lstrip r else s
  end.

Fixpoint rstrip (s : string) : string :=
  match s with
  | EmptyString => EmptyString
  | String c r =>
      match rstrip r with
      | EmptyString => if isspace c then EmptyString else String c EmptyString
      | r' => String c r'
      end
  end.

(** [s.strip()]. *)
Definition strip (s : string) : string := rstrip (lstrip s).

(** Truth value of a string: [not s] holds of the empty string only. *)
Definition truthy (s : string) : bool :=
  match s with EmptyString => false | String _ _ => true end.

End PyStr.

(** ** JSON values and exceptions *)

#[local] Set Warnings "-register-all".

(** What [json.loads] returns.  A number with a fraction or an exponent
    is kept as its literal: its conversion to a double is not modelled. *)
Inductive json : Type :=
| JNull
| JBool (b : bool)
| JInt (z : Z)
| JFloat (literal : string)
| JStr (s : string)
| JArr (items : list json)
| JObj (members : list (string * json)).

(** The two classes of exception that the handlers of [client.py] tell
    apart: [json.JSONDecodeError], and any other [Exception]. *)
Inductive exn : Type :=
| JSONDecodeError
| OtherException.

Inductive result (A : Type) : Type :=
| Ok (a : A)
| Raise (e : exn).

Arguments Ok {A} a.
Arguments Raise {A} e.

Module PyDict.

(** [d[k] = v] on an insertion-ordered dictionary. *)
Fixpoint set (k : string) (v : json) (d : list (string * json))
  : list (string * json) :=
  match d with
  | [] => [(k, v)]
  | (k', v') :: r =>
      if String.eqb k k' then (k', v) :: r else (k', v') :: set k v r
  end.

(** [d.get(k)]: [None] when the key is absent. *)
Fixpoint get (k : string) (d : list (string * json)) : option json :=
  match d with
  | [] => None
  | (k', v) :: r => if String.eqb k k' then Some v else get k r
  end.

End PyDict.

(** Which number literals [float] turns into zero.  The conversion
    rounds to the nearest double, ties to even, so a decimal literal
    gives [0.0] or [-0.0] when its digits are all zero and also when
    its value is at most [2^-1075], half the smallest positive double.
    [NaN], [Infinity] and [-Infinity] have no digit and are not zero. *)
Module PyFloat.

Local Open Scope char_scope.

Definition digit (c : ascii) : option Z :=
  let n := nat_of_ascii c in
  if ((48 <=? n) && (n <=? 57))%nat then Some (Z.of_nat n - 48)%Z else None.

(** The digits at the head of [s], added to the number [acc], with
    their count. *)
Fixpoint read_digits (s : list ascii) (acc count : Z)
  : Z * Z * list ascii :=
  match s with
  | c :: r =>
      match digit c with
      | Some d => read_digits r (10 * acc + d)%Z (count + 1)%Z
      | None => (acc, count, s)
      end
  | [] => (acc, count, [])
  end.

(** The exponent part of a literal, zero when there is none. *)
Definition read_exponent (s : list ascii) : Z :=
  match s with
  | c :: r =>
      if Ascii.eqb c "e" || Ascii.eqb c "E" then
        match r with
        | "-" :: r' => let '(e, _, _) := read_digits r' 0%Z 0%Z in (- e)%Z
        | "+" :: r' => let '(e, _, _) := read_digits r' 0%Z 0%Z in e
        | _ => let '(e, _, _) := read_digits r 0%Z 0%Z in e
        end
      else 0%Z
  | [] => 0%Z
  end.

(** Whether the double of the literal is zero: the literal stands for
    [m * 10^e], with [m] the number written by its digits. *)
Definition is_zero (literal : string) : bool :=
  let s := list_ascii_of_string literal in
  let s := match s with "-" :: r => r | _ => s end in
  let '(m1, n1, r1) := read_digits s 0%Z 0%Z in
  if (n1 =? 0)%Z then false
  else
    let '(m, nfrac, r2) :=
      match r1 with
      | "." :: r => read_digits r m1 0%Z
      | _ => (m1, 0%Z, r1)
      end in
    let e := (read_exponent r2 - nfrac)%Z in
    ((m =? 0) || ((e <? 0) && (m * 2 ^ 1075 <=? 10 ^ (- e))))%Z.

End PyFloat.

(** Truth value of a decoded JSON value ([if not event_data]). *)
Definition json_truthy (v : json) : bool :=
  match v with
  | JNull => false
  | JBool b => b
  | JInt z => negb (z =? 0)
  | JFloat literal => negb (PyFloat.is_zero literal)
  | JStr s => PyStr.truthy s
  | JArr l => match l with [] => false | _ => true end
  | JObj o => match o with [] => false | _ => true end
  end.

(** ** A reference decoder

    [json.loads] belongs to the Python library, not to this program: the
    development below takes the decoder as a parameter.  The examples
    need a decoder to run, and this one follows the scanner of the [json]
    module on texts over the code points below 256: JSON whitespace, the
    literals, numbers, strings with their escapes, arrays and objects.
    An integer of more than 4300 digits raises [ValueError], as in the
    interpreters that limit the conversion of integers from text; it is
    reported as [OtherException].  So are two situations of the model:
    nesting deeper than the fuel (the recursion limit of the
    interpreter), and an escape that denotes a code point of 256 or
    more, which a [string] cannot hold. *)

Module JsonRef.

Local Open Scope char_scope.

Definition is_ws (c : ascii) : bool :=
  match c with
  | " " | "009" | "010" | "013" => true
  | _ => false
  end.

Fixpoint skip_ws (s : list ascii) : list ascii :=
  match s with
  | c :: r => if is_ws c then skip_ws r else s
  | [] => []
  end.

Definition is_digit (c : ascii) : bool :=
  let n := nat_of_ascii c in ((48 <=? n) && (n <=? 57))%nat.

Fixpoint span_digits (s : list ascii) : list ascii * list ascii :=
  match s with
  | c :: r =>
      if is_digit c
      then let '(ds, r') := span_digits r in (c :: ds, r')
      else ([], s)
  | [] => ([], [])
  end.

Definition digits_value (ds : list ascii) : Z :=
  fold_left (fun acc c => 10 * acc + (Z.of_nat (nat_of_ascii c) - 48)) ds 0%Z.

Fixpoint strip_prefix (p s : list ascii) : option (list ascii) :=
  match p, s with
  | [], _ => Some s
  | a :: p', b :: s' => if Ascii.eqb a b then strip_prefix p' s' else None
  | _ :: _, [] => None
  end.

(** The integer part of a number: [0] or a non-zero digit followed by
    digits. *)
Definition scan_int_part (s : list ascii)
  : option (list ascii * list ascii) :=
  match s with
  | "0" :: r => Some (["0"], r)
  | c :: _ =>
      if is_digit c then Some (span_digits s) else None
  | [] => None
  end.

(** An optional fraction [.digits]. *)
Definition scan_frac (s : list ascii) : list ascii * list ascii :=
  match s with
  | "." :: r =>
      match span_digits r with
      | ([], _) => ([], s)
      | (ds, r') => ("." :: ds, r')
      end
  | _ => ([], s)
  end.

(** An optional exponent [e], [E] with an optional sign and digits. *)
Definition scan_exp (s : list ascii) : list ascii * list ascii :=
  match s with
  | c :: r =>
      if Ascii.eqb c "e" || Ascii.eqb c "E" then
        let '(sign, r1) :=
          match r with
          | "+" :: r1 => (["+"], r1)
          | "-" :: r1 => (["-"], r1)
          | _ => ([], r)
          end in
        match span_digits r1 with
        | ([], _) => ([], s)
        | (ds, r') => (c :: sign ++ ds, r')
        end
      else ([], s)
  | [] => ([], s)
  end.

(** The longest integer, in digits, that [int] converts from text. *)
Definition max_str_digits : nat := 4300.

(** A number, if one starts [s].  The conversion of an integer of more
    than [max_str_digits] digits raises [ValueError], which is not a
    decode error. *)
Definition scan_number (s : list ascii)
  : option (result (json * list ascii)) :=
  let '(neg, s1) :=
    match s with "-" :: r => (true, r) | _ => (false, s) end in
  match scan_int_part s1 with
  | None => None
  | Some (ip, r) =>
      let '(fp, r1) := scan_frac r in
      let '(ep, r2) := scan_exp r1 in
      match fp, ep with
      | [], [] =>
          if (max_str_digits <? List.length ip)%nat
          then Some (Raise OtherException)
          else
            Some (Ok (JInt (if neg then - digits_value ip
                            else digits_value ip),
                      r2))
      | _, _ =>
          Some (Ok (JFloat (string_of_list_ascii
                              ((if neg then ["-"] else [])
                               ++ ip ++ fp ++ ep)),
                    r2))
      end
  end.

Definition hex_value (c : ascii) : option nat :=
  let n := nat_of_ascii c in
  if ((48 <=? n) && (n <=? 57))%nat then Some (n - 48)%nat
  else if ((97 <=? n) && (n <=? 102))%nat then Some (n - 87)%nat
  else if ((65 <=? n) && (n <=? 70))%nat then Some (n - 55)%nat
  else None.

(** The body of a string, after its opening quote. *)
Fixpoint scan_string (s : list ascii) : result (string * list ascii) :=
  match s with
  | [] => Raise JSONDecodeError
  | "034" :: r => Ok (EmptyString, r)
  | "\" :: e :: r =>
      let continue (c : ascii) (r' : list ascii) :=
        match scan_string r' with
        | Ok (str, r'') => Ok (String c str, r'')
        | Raise x => Raise x
        end in
      match e with
      | "034" => continue "034" r
      | "\" => continue "\" r
      | "/" => continue "/" r
      | "b" => continue "008" r
      | "f" => continue "012" r
      | "n" => continue "010" r
      | "r" => continue "013" r
      | "t" => continue "009" r
      | "u" =>
          match r with
          | h1 :: h2 :: h3 :: h4 :: r' =>
              match hex_value h1, hex_value h2, hex_value h3, hex_value h4
              with
              | Some a, Some b, Some c, Some d =>
                  if ((a =? 0) && (b =? 0))%nat
                  then continue (ascii_of_nat (16 * c + d)) r'
                  else Raise OtherException
              | _, _, _, _ => Raise JSONDecodeError
              end
          | _ => Raise JSONDecodeError
          end
      | _ => Raise JSONDecodeError
      end
  | "\" :: [] => Raise JSONDecodeError
  | c :: r =>
      if (nat_of_ascii c <? 32)%nat then Raise JSONDecodeError
      else match scan_string r with
           | Ok (str, r') => Ok (String c str, r')
           | Raise x => Raise x
           end
  end.

Definition scan_literal (s : list ascii) : result (json * list ascii) :=
  let lit (text : string) (v : json) (k : result (json * list ascii)) :=
    match strip_prefix (list_ascii_of_string text) s with
    | Some r => Ok (v, r)
    | None => k
    end in
  lit "null"%string JNull
    (lit "true"%string (JBool true)
       (lit "false"%string (JBool false)
          (match scan_number s with
           | Some res => res
           | None =>
               lit "NaN"%string (JFloat "NaN")
                 (lit "Infinity"%string (JFloat "Infinity")
                    (lit "-Infinity"%string (JFloat "-Infinity")
                       (Raise JSONDecodeError)))
           end))).

Fixpoint scan_value (fuel : nat) (s : list ascii)
  : result (json * list ascii) :=
  match fuel with
  | O => Raise OtherException
  | S fuel' =>
      match s with
      | "034" :: r =>
          match scan_string r with
          | Ok (str, r') => Ok (JStr str, r')
          | Raise x => Raise x
          end
      | "{" :: r =>
          match skip_ws r with
          | "}" :: r' => Ok (JObj [], r')
          | "034" :: r' => scan_members fuel' r' []
          | _ => Raise JSONDecodeError
          end
      | "[" :: r =>
          match skip_ws r with
          | "]" :: r' => Ok (JArr [], r')
          | r' => scan_items fuel' r' []
          end
      | _ => scan_literal s
      end
  end

with scan_members (fuel : nat) (s : list ascii)
       (acc : list (string * json)) : result (json * list ascii) :=
  match fuel with
  | O => Raise OtherException
  | S fuel' =>
      match scan_string s with
      | Raise x => Raise x
      | Ok (key, r) =>
          match skip_ws r with
          | ":" :: r1 =>
              match scan_value fuel' (skip_ws r1) with
              | Raise x => Raise x
              | Ok (v, r2) =>
                  let acc' := PyDict.set key v acc in
                  match skip_ws r2 with
                  | "}" :: r3 => Ok (JObj acc', r3)
                  | "," :: r3 =>
                      match skip_ws r3 with
                      | "034" :: r4 => scan_members fuel' r4 acc'
                      | _ => Raise JSONDecodeError
                      end
                  | _ => Raise JSONDecodeError
                  end
              end
          | _ => Raise JSONDecodeError
          end
      end
  end

with scan_items (fuel : nat) (s : list ascii) (acc : list json)
  : result (json * list ascii) :=
  match fuel with
  | O => Raise OtherException
  | S fuel' =>
      match scan_value fuel' s with
      | Raise x => Raise x
      | Ok (v, r) =>
          match skip_ws r with
          | "]" :: r1 => Ok (JArr (acc ++ [v]), r1)
          | "," :: r1 => scan_items fuel' (skip_ws r1) (acc ++ [v])
          | _ => Raise JSONDecodeError
          end
      end
  end.

(** [json.loads(s)]: one value between optional whitespace, and
    nothing after it. *)
Definition json_loads (s : string) : result json :=
  let cs := list_ascii_of_string s in
  match scan_value (2 * List.length cs + 2) (skip_ws cs) with
  | Raise x => Raise x
  | Ok (v, r) =>
      match skip_ws r with
      | [] => Ok v
      | _ :: _ => Raise JSONDecodeError
      end
  end.

End JsonRef.

(** ** Data of the client *)

(** The dictionary returned by [parse_sse_line]: its ['type'] entry is
    the constructor. *)
Inductive token : Type :=
| EventName (event : string)
| Data (data : json)
| Id (id : string).

(** The dictionary that [listen_stream] builds and yields.  It always
    holds the key ['event'], so it is never empty and always true in a
    condition; ['data'] and ['id'] are present once a line has set them. *)
Record sse_event : Type := {
  ev_event : string;
  ev_data : option json;
  ev_id : option string
}.

Definition new_event (name : string) : sse_event :=
  {| ev_event := name; ev_data := None; ev_id := None |}.

Definition with_data (d : json) (ev : sse_event) : sse_event :=
  {| ev_event := ev_event ev; ev_data := Some d; ev_id := ev_id ev |}.

Definition with_id (i : string) (ev : sse_event) : sse_event :=
  {| ev_event := ev_event ev; ev_data := ev_data ev; ev_id := Some i |}.

(** The fields of [PumpMonitorConfig] that [client.py] reads. *)
Record PumpMonitorConfig : Type := {
  stream_timeout : Z;
  reconnect_delay : Z;
  max_retries : Z;
  health_check_interval : Z;
  show_detailed_logs : bool;
  show_stats_interval : Z;
  quiet_mode : bool;
  show_raw_data : bool;
  save_to_file : bool;
  enable_debug_logging : bool
}.

(** [StatsManager]. *)
Record StatsManager : Type := {
  total_events : Z;
  event_counts : gmap string Z;
  connections : Z
}.

(** The connection state of [SSEClient].  [connection_id] is [JNull]
    while it is [None]. *)
Record SSEClient : Type := {
  connection_id : json;
  last_data_time : Z;
  last_health_check : option Z;
  connected : bool
}.

(** What the controller prints. *)
Inductive printed : Type :=
| PrintConnected (endpoint connection : json)
| PrintRawData (text : string)
| PrintEvent (text : string)
| PrintStats (snapshot : StatsManager)
| PrintShutdownRequested
| PrintShutdownDuringStreaming
| PrintFailedToConnect
| PrintRetrying (attempt : Z)
| PrintStreamConnected
| PrintStale
| PrintHealthCheckFailed.

(** One response of [session.get(events_url, stream=True)]: the lines
    that [iter_lines] delivers, and whether the iteration then ends with
    an exception instead of the end of the body. *)
Record stream : Type := {
  stream_lines : list (option string);
  stream_fault : bool
}.

(** The environment of a run, as the answers it gives: the [k]-th
    reading of [time.time()], the [k]-th answer of
    [shutdown_handler.should_shutdown()], the outcome of the [k]-th
    connection request ([None] is a [requests.RequestException]) and of
    the [k]-th health probe. *)
Record environment : Type := {
  clock : nat -> Z;
  should_shutdown : nat -> bool;
  connect_result : nat -> option stream;
  probe_result : nat -> bool
}.

(** The state of a [PumpMonitorClient] and of its surroundings: the
    client objects, what was printed and written to the output file, the
    calls of [handle_sse_event] made so far (a ghost field), and how many
    answers of each kind the environment has given. *)
Record world : Type := {
  client : SSEClient;
  stats : StatsManager;
  console : list printed;
  file : list (string * json);
  handled : list (string * json);
  ticks : nat;
  polls : nat;
  connects : nat;
  probes : nat
}.

Definition set_client (c : SSEClient) (w : world) : world :=
  {| client := c; stats := stats w; console := console w; file := file w;
     handled := handled w; ticks := ticks w; polls := polls w;
     connects := connects w; probes := probes w |}.

Definition set_stats (s : StatsManager) (w : world) : world :=
  {| client := client w; stats := s; console := console w; file := file w;
     handled := handled w; ticks := ticks w; polls := polls w;
     connects := connects w; probes := probes w |}.

Definition add_console (p : printed) (w : world) : world :=
  {| client := client w; stats := stats w; console := console w ++ [p];
     file := file w; handled := handled w; ticks := ticks w;
     polls := polls w; connects := connects w; probes := probes w |}.

Definition add_file (r : string * json) (w : world) : world :=
  {| client := client w; stats := stats w; console := console w;
     file := file w ++ [r]; handled := handled w; ticks := ticks w;
     polls := polls w; connects := connects w; probes := probes w |}.

Definition add_handled (r : string * json) (w : world) : world :=
  {| client := client w; stats := stats w; console := console w;
     file := file w; handled := handled w ++ [r]; ticks := ticks w;
     polls := polls w; connects := connects w; probes := probes w |}.

Definition next_tick (w : world) : world :=
  {| client := client w; stats := stats w; console := console w;
     file := file w; handled := handled w; ticks := S (ticks w);
     polls := polls w; connects := connects w; probes := probes w |}.

Definition next_poll (w : world) : world :=
  {| client := client w; stats := stats w; console := console w;
     file := file w; handled := handled w; ticks := ticks w;
     polls := S (polls w); connects := connects w; probes := probes w |}.

Definition next_connect (w : world) : world :=
  {| client := client w; stats := stats w; console := console w;
     file := file w; handled := handled w; ticks := ticks w;
     polls := polls w; connects := S (connects w); probes := probes w |}.

Definition next_probe (w : world) : world :=
  {| client := client w; stats := stats w; console := console w;
     file := file w; handled := handled w; ticks := ticks w;
     polls := polls w; connects := connects w; probes := S (probes w) |}.

Definition set_connection_id (v : json) (c : SSEClient) : SSEClient :=
  {| connection_id := v; last_data_time := last_data_time c;
     last_health_check := last_health_check c; connected := connected c |}.

Definition set_last_data_time (t : Z) (c : SSEClient) : SSEClient :=
  {| connection_id := connection_id c; last_data_time := t;
     last_health_check := last_health_check c; connected := connected c |}.

Definition set_last_health_check (t : option Z) (c : SSEClient) : SSEClient :=
  {| connection_id := connection_id c; last_data_time := last_data_time c;
     last_health_check := t; connected := connected c |}.

Definition set_connected (b : bool) (c : SSEClient) : SSEClient :=
  {| connection_id := connection_id c; last_data_time := last_data_time c;
     last_health_check := last_health_check c; connected := b |}.

(** ** The state monad of the controller *)

Definition M (A : Type) : Type := world -> A * world.

Definition ret {A : Type} (a : A) : M A := fun w => (a, w).

Definition bind {A B : Type} (m : M A) (k : A -> M B) : M B :=
  fun w => let '(a, w') := m w in k a w'.

Definition modify (f : world -> world) : M unit := fun w => (tt, f w).

Definition gets {A : Type} (f : world -> A) : M A := fun w => (f w, w).

Definition when (b : bool) (m : M unit) : M unit := if b then m else ret tt.

Declare Scope monitor_scope.
Delimit Scope monitor_scope with monitor.
Notation "x <- m ;; k" := (bind m (fun x => k))
  (at level 100, m at next level, right associativity) : monitor_scope.
Notation "m ;;; k" := (bind m (fun _ => k))
  (at level 100, right associativity) : monitor_scope.

(** ** StatsManager *)

(** [StatsManager.__init__]. *)
Definition stats_init : StatsManager :=
  {| total_events := 0; event_counts := ∅; connections := 0 |}.

(** [self.event_counts.get(event_type, 0)]. *)
Definition count_of (event_type : string) (s : StatsManager) : Z :=
  default 0 (event_counts s !! event_type).

(** [StatsManager.add_event]. *)
Definition add_event (event_type : string) (s : StatsManager) : StatsManager :=
  {| total_events := total_events s + 1;
     event_counts :=
       <[event_type := count_of event_type s + 1]> (event_counts s);
     connections := connections s |}.

(** [StatsManager.update_connection_count]. *)
Definition update_connection_count (count : Z) (s : StatsManager)
  : StatsManager :=
  {| total_events := total_events s;
     event_counts := event_counts s;
     connections := count |}.

(** The sum of the values of [event_counts]. *)
Definition counted (s : StatsManager) : Z :=
  map_fold (fun _ v acc => v + acc) 0 (event_counts s).

(** A call on a [StatsManager]. *)
Inductive stats_call : Type :=
| AddEvent (event_type : string)
| UpdateConnectionCount (count : Z).

Definition stats_apply (s : StatsManager) (c : stats_call) : StatsManager :=
  match c with
  | AddEvent t => add_event t s
  | UpdateConnectionCount n => update_connection_count n s
  end.

Definition stats_run (calls : list stats_call) : StatsManager :=
  fold_left stats_apply calls stats_init.

(** ** FileManager *)

(** [FileManager.save_event]: a record is appended unless the data is
    false in a condition.  The write itself is taken to succeed, and the
    time stamp of the record is left out. *)
Definition save_event (event_type : string) (event_data : json) : M unit :=
  if json_truthy event_data
  then modify (add_file (event_type, event_data))
  else ret tt.

Section Client.

(** [json.loads]. *)
Variable json_loads : string -> result json.

(** [EventFormatter.format_event] and [format_raw_data] of
    [formatters.py], which only build the text to print. *)
Variable format_event : string -> json -> string.
Variable format_raw_data : string -> json -> string.

Variable env : environment.
Variable config : PumpMonitorConfig.

(** Whether [run_monitor] was given a [shutdown_handler]. *)
Variable shutdown_handler : bool.

Local Open Scope monitor_scope.

(** *** The line decoder *)

(** The wrapper of a payload that is not JSON. *)
Definition text_payload (data_str : string) : json :=
  JObj [("message", JStr data_str); ("is_text", JBool true)].

(** The body of the [try] block of [parse_sse_line]. *)
Definition parse_fields (line : string) : result (option token) :=
  if PyStr.startswith "event: " line then
    Ok (Some (EventName (PyStr.strip (PyStr.slice_from 7 line))))
  else if PyStr.startswith "data: " line then
    let data_str := PyStr.strip (PyStr.slice_from 6 line) in
    match json_loads data_str with
    | Ok data => Ok (Some (Data data))
    | Raise JSONDecodeError => Ok (Some (Data (text_payload data_str)))
    | Raise e => Raise e
    end
  else if PyStr.startswith "id: " line then
    Ok (Some (Id (PyStr.strip (PyStr.slice_from 4 line))))
  else Ok None.

(** [SSEClient.parse_sse_line]. *)
Definition parse_sse_line (line : string) : result (option token) :=
  if negb (PyStr.truthy line) || PyStr.startswith ":" line then Ok None
  else
    match parse_fields line with
    | Ok parsed => Ok parsed
    | Raise _ => Ok None
    end.

(** *** The event assembler *)

(** One turn of the [for] loop of [listen_stream], from the value of
    [current_event] and the next line to the new [current_event] and
    the event yielded, if any. *)
Definition listen_step (current_event : option sse_event)
    (line : option string)
  : result (option sse_event * option sse_event) :=
  match line with
  | None => Ok (current_event, None)
  | Some line =>
      match parse_sse_line line with
      | Raise e => Raise e
      | Ok None =>
          match current_event with
          | Some ev => Ok (None, Some ev)
          | None => Ok (current_event, None)
          end
      | Ok (Some (EventName name)) => Ok (Some (new_event name), None)
      | Ok (Some (Data d)) =>
          match current_event with
          | Some ev => Ok (Some (with_data d ev), None)
          | None => Ok (current_event, None)
          end
      | Ok (Some (Id i)) =>
          match current_event with
          | Some ev => Ok (Some (with_id i ev), None)
          | None => Ok (current_event, None)
          end
      end
  end.

(** The loop of [listen_stream] from a given [current_event]: the
    events yielded, and whether the [except] clause was entered. *)
Fixpoint listen_from (current_event : option sse_event)
    (lines : list (option string)) : list sse_event * bool :=
  match lines with
  | [] => ([], false)
  | line :: rest =>
      match listen_step current_event line with
      | Raise _ => ([], true)
      | Ok (current', yielded) =>
          let '(events, failed) := listen_from current' rest in
          (match yielded with
           | Some ev => ev :: events
           | None => events
           end, failed)
      end
  end.

(** [SSEClient.listen_stream]: the events yielded for the lines of a
    response. *)
Definition listen_stream (lines : list (option string)) : list sse_event :=
  fst (listen_from None lines).

(** *** The connection manager *)

(** [time.time()]. *)
Definition time_time : M Z :=
  fun w => (clock env (ticks w), next_tick w).

(** [shutdown_handler and shutdown_handler.should_shutdown()]. *)
Definition shutdown_requested : M bool :=
  if shutdown_handler
  then fun w => (should_shutdown env (polls w), next_poll w)
  else ret false.

Definition update_client (f : SSEClient -> SSEClient) : M unit :=
  modify (fun w => set_client (f (client w)) w).

Definition print (p : printed) : M unit := modify (add_console p).

(** [SSEClient.needs_health_check].  [not self.last_health_check]
    holds of [None] and of a zero time stamp. *)
Definition needs_health_check : M bool :=
  last <- gets (fun w => last_health_check (client w)) ;;
  match last with
  | None => ret true
  | Some t =>
      if t =? 0 then ret true
      else
        now <- time_time ;;
        ret (now - t >? health_check_interval config)
  end.

(** [SSEClient.perform_health_check]. *)
Definition perform_health_check : M bool :=
  ok <- (fun w => (probe_result env (probes w), next_probe w)) ;;
  if ok then
    now <- time_time ;;
    update_client (set_last_health_check (Some now)) ;;;
    ret true
  else ret false.

(** [SSEClient.connect_stream]. *)
Definition connect_stream : M (option stream) :=
  response <- (fun w => (connect_result env (connects w), next_connect w)) ;;
  match response with
  | Some body =>
      update_client (set_connected true) ;;;
      current_time <- time_time ;;
      update_client (set_last_data_time current_time) ;;;
      update_client (set_last_health_check (Some current_time)) ;;;
      ret (Some body)
  | None =>
      update_client (set_connected false) ;;;
      ret None
  end.

(** [SSEClient.is_connection_stale]. *)
Definition is_connection_stale : M bool :=
  current_time <- time_time ;;
  last <- gets (fun w => last_data_time (client w)) ;;
  ret (current_time - last >? stream_timeout config).

(** [SSEClient.update_data_time]. *)
Definition update_data_time : M unit :=
  now <- time_time ;;
  update_client (set_last_data_time now).

(** *** The session controller *)

(** The branch of [handle_sse_event] for a ["connected"] event.  A
    value other than an object has no [get] method: the call raises
    and the handler of [handle_sse_event] absorbs the exception. *)
Definition handle_connected (data : json) : M unit :=
  match data with
  | JObj members =>
      let id := default JNull (PyDict.get "connection_id" members) in
      let endpoint :=
        default (JStr "unknown") (PyDict.get "endpoint" members) in
      update_client (set_connection_id id) ;;;
      when (negb (quiet_mode config)) (print (PrintConnected endpoint id))
  | _ => ret tt
  end.

(** [PumpMonitorClient.handle_sse_event].  The file manager exists
    when [save_to_file] is set. *)
Definition handle_sse_event (event_name : string) (data : json) : M unit :=
  modify (add_handled (event_name, data)) ;;;
  update_data_time ;;;
  if String.eqb event_name "connected" then handle_connected data
  else if String.eqb event_name "ping" then ret tt
  else
    modify (fun w => set_stats (add_event event_name (stats w)) w) ;;;
    when (show_raw_data config && negb (quiet_mode config))
      (print (PrintRawData (format_raw_data event_name data))) ;;;
    when (show_detailed_logs config && negb (quiet_mode config))
      (print (PrintEvent (format_event event_name data))) ;;;
    when (save_to_file config) (save_event event_name data).

(** [PumpMonitorClient.print_stats]. *)
Definition print_stats : M unit :=
  snapshot <- gets stats ;;
  print (PrintStats snapshot).

(** How a turn of the [for] loop over the events ends. *)
Inductive flow : Type :=
| Next
| Break
| Return.

(** [event.get('data', {})]. *)
Definition event_data (event : sse_event) : json :=
  default (JObj []) (ev_data event).

(** The block [# Process event] of the [for] loop: the event is handed
    to [handle_sse_event] when its name is not empty. *)
Definition dispatch_event (event : sse_event) : M unit :=
  let event_name := ev_event event in
  when (PyStr.truthy event_name)
    (handle_sse_event event_name (event_data event)).

(** The body of the [for] loop of [_run_sse_monitor], for one event;
    [last_stats_time] is threaded through. *)
Definition process_event (event : sse_event) (last_stats_time : Z)
  : M (flow * Z) :=
  stop <- shutdown_requested ;;
  if stop then
    print PrintShutdownDuringStreaming ;;;
    ret (Return, last_stats_time)
  else
    stale <- is_connection_stale ;;
    if stale then
      when (negb (quiet_mode config)) (print PrintStale) ;;;
      ret (Break, last_stats_time)
    else
      due <- needs_health_check ;;
      healthy <- (if due then perform_health_check else ret true) ;;
      if negb healthy then
        when (negb (quiet_mode config)) (print PrintHealthCheckFailed) ;;;
        ret (Break, last_stats_time)
      else
        dispatch_event event ;;;
        current_time <- time_time ;;
        if current_time - last_stats_time >=? show_stats_interval config
        then print_stats ;;; ret (Next, current_time)
        else ret (Next, last_stats_time).

(** The [for] loop over the events of one stream. *)
Fixpoint process_events (events : list sse_event) (last_stats_time : Z)
  : M (flow * Z) :=
  match events with
  | [] => ret (Next, last_stats_time)
  | event :: rest =>
      r <- process_event event last_stats_time ;;
      match r with
      | (Next, t) => process_events rest t
      | _ => ret r
      end
  end.

(** Why the [while] loop was left. *)
Inductive stop_reason : Type :=
| ShutdownRequested
| RetriesExhausted
| ShutdownDuringStreaming.

(** The local variables of [_run_sse_monitor]. *)
Record locals : Type := {
  connection_attempts : Z;
  last_stats_time : Z
}.

(** One turn of the [while self.running] loop: [Some] reason when the
    loop is left, [None] when it goes round again.  [self.running] is
    never cleared.  [time.sleep] only lets the clock advance, which the
    readings of [clock] account for.  When the events of a stream are
    used up, the generator runs to its end, where a failure clears
    [connected]. *)
Definition monitor_turn (l : locals) : M (option stop_reason * locals) :=
  stop <- shutdown_requested ;;
  if stop then
    print PrintShutdownRequested ;;;
    ret (Some ShutdownRequested, l)
  else
    response <- connect_stream ;;
    match response with
    | None =>
        let attempts := connection_attempts l + 1 in
        let l' := {| connection_attempts := attempts;
                     last_stats_time := last_stats_time l |} in
        if attempts >=? max_retries config then
          print PrintFailedToConnect ;;;
          ret (Some RetriesExhausted, l')
        else
          when (negb (quiet_mode config)) (print (PrintRetrying attempts)) ;;;
          ret (None, l')
    | Some body =>
        when (negb (quiet_mode config)) (print PrintStreamConnected) ;;;
        let '(events, failed) := listen_from None (stream_lines body) in
        r <- process_events events (last_stats_time l) ;;
        let l' t := {| connection_attempts := 0; last_stats_time := t |} in
        match r with
        | (Return, t) => ret (Some ShutdownDuringStreaming, l' t)
        | (Break, t) => ret (None, l' t)
        | (Next, t) =>
            when (failed || stream_fault body)
              (update_client (set_connected false)) ;;;
            ret (None, l' t)
        end
    end.

(** The [while] loop, for at most [fuel] turns: [None] when the fuel
    runs out with the loop still going. *)
Fixpoint monitor_loop (fuel : nat) (l : locals)
  : M (option stop_reason * locals) :=
  match fuel with
  | O => ret (None, l)
  | S fuel' =>
      r <- monitor_turn l ;;
      match r with
      | (Some why, l') => ret (Some why, l')
      | (None, l') => monitor_loop fuel' l'
      end
  end.

(** [PumpMonitorClient._run_sse_monitor]. *)
Definition run_sse_monitor (fuel : nat) : M (option stop_reason * locals) :=
  now <- time_time ;;
  monitor_loop fuel {| connection_attempts := 0; last_stats_time := now |}.

End Client.

(** [SSEClient.__init__] at the time [now], and a fresh
    [PumpMonitorClient]. *)
Definition client_init (now : Z) : SSEClient :=
  {| connection_id := JNull; last_data_time := now;
     last_health_check := None; connected := false |}.

Definition world_init (now : Z) : world :=
  {| client := client_init now; stats := stats_init; console := [];
     file := []; handled := []; ticks := 0; polls := 0; connects := 0;
     probes := 0 |}.

(** ** Notions used in the statements *)

Definition is_event_line (line : string) : bool :=
  PyStr.startswith "event: " line.

Definition is_data_line (line : string) : bool :=
  PyStr.startswith "data: " line.

Definition is_id_line (line : string) : bool :=
  PyStr.startswith "id: " line.

(** The remainder of a line after a prefix of [n] characters, trimmed. *)
Definition trimmed_remainder (n : nat) (line : string) : string :=
  PyStr.strip (PyStr.slice_from n line).

Section Frames.

Variable json_loads : string -> result json.

(** The decoder ends on the payload of the line, with a value or with
    a decode error. *)
Definition decodes (line : string) : Prop :=
  json_loads (trimmed_remainder 6 line) <> Raise OtherException.

(** The value that a data line carries: its payload decoded, or
    wrapped as text when it is not JSON. *)
Definition data_value (line : string) : json :=
  match json_loads (trimmed_remainder 6 line) with
  | Ok v => v
  | Raise _ => text_payload (trimmed_remainder 6 line)
  end.

(** The value of the last data line among [body], if there is one. *)
Definition last_data (body : list string) : option json :=
  option_map data_value (find is_data_line (rev body)).

(** The trimmed remainder of the last id line among [body]. *)
Definition last_id (body : list string) : option string :=
  option_map (trimmed_remainder 4) (find is_id_line (rev body)).

(** What a data or id line does to the event in progress. *)
Definition absorb (ev : sse_event) (line : string) : sse_event :=
  if is_data_line line then with_data (data_value line) ev
  else if is_id_line line then with_id (trimmed_remainder 4 line) ev
  else ev.

End Frames.

(** The number of consecutive failed connection requests just before
    the request of index [m]. *)
Fixpoint failed_run (env : environment) (m : nat) : nat :=
  match m with
  | O => O
  | S k =>
      match connect_result env k with
      | None => S (failed_run env k)
      | Some _ => O
      end
  end.

(** [w'] comes after [w] without a new connection request: the count of
    requests is the same and no poll of the shutdown handler is taken
    back. *)
Definition same_connects (w w' : world) : Prop :=
  connects w' = connects w /\ (polls w <= polls w')%nat.

(** Every run of [m] relates the world before to the world after. *)
Definition keeps {A : Type} (m : M A) : Prop :=
  forall w, same_connects w (snd (m w)).

(** No failed request among the first [m] has brought the run of
    failures that it ends up to the ceiling. *)
Definition below_ceiling (env : environment) (config : PumpMonitorConfig)
    (m : nat) : Prop :=
  forall k : nat,
    (k < m)%nat -> connect_result env k = None ->
    Z.of_nat (failed_run env (S k)) < max_retries config.

(** The number of failed requests in a row after which the loop gives
    up: [max_retries], and one when [max_retries] is below one. *)
Definition ceiling (config : PumpMonitorConfig) : nat :=
  Z.to_nat (Z.max 1 (max_retries config)).

(** ** Notions for whole streams *)

Section Streams.

Variable json_loads : string -> result json.

(** The value of [current_event] once the loop of [listen_stream],
    started with [current_event], has read [lines]. *)
Fixpoint current_after (current_event : option sse_event)
    (lines : list (option string)) : option sse_event :=
  match lines with
  | [] => current_event
  | line :: rest =>
      match listen_step json_loads current_event line with
      | Raise _ => current_event
      | Ok (current', _) => current_after current' rest
      end
  end.

(** A frame on the wire: an event line and the data and id lines that
    follow it; the blank line that ends it is added by [frame_lines]. *)
Record frame : Type := {
  frame_head : string;
  frame_body : list string
}.

Definition frame_lines (f : frame) : list (option string) :=
  map Some (frame_head f :: frame_body f ++ [EmptyString]).

Definition well_formed (f : frame) : Prop :=
  is_event_line (frame_head f) = true
  /\ Forall (fun l => is_data_line l || is_id_line l = true) (frame_body f)
  /\ Forall (fun l => is_data_line l = true -> decodes json_loads l)
       (frame_body f).

(** The event that a frame stands for. *)
Definition frame_event (f : frame) : sse_event :=
  {| ev_event := trimmed_remainder 7 (frame_head f);
     ev_data := last_data json_loads (frame_body f);
     ev_id := last_id (frame_body f) |}.

End Streams.

(** The event lines among the lines of a stream. *)
Definition event_lines (lines : list (option string)) : list string :=
  flat_map (fun line =>
              match line with
              | Some l => if is_event_line l then [l] else []
              | None => []
              end) lines.

(** ** Notions for the effects of the controller *)

(** Every run of [m] takes a world to one that [R] relates to it. *)
Definition follows (R : world -> world -> Prop) {A : Type} (m : M A) : Prop :=
  forall w, R w (snd (m w)).

(** The events that go to the statistics, the formatter and the file:
    all but ["connected"] and ["ping"]. *)
Definition is_counted (event_name : string) : bool :=
  negb (String.eqb event_name "connected")
  && negb (String.eqb event_name "ping").

(** The connection id after a ["connected"] event with the given data,
    [old] being the id before. *)
Definition announced_id (data old : json) : json :=
  match data with
  | JObj members => default JNull (PyDict.get "connection_id" members)
  | _ => old
  end.

(** What [handle_sse_event] prints for an event. *)
Definition printed_by (format_event format_raw_data : string -> json -> string)
    (config : PumpMonitorConfig) (event_name : string) (data : json)
  : list printed :=
  if quiet_mode config then []
  else if String.eqb event_name "connected" then
    match data with
    | JObj members =>
        [PrintConnected
           (default (JStr "unknown") (PyDict.get "endpoint" members))
           (default JNull (PyDict.get "connection_id" members))]
    | _ => []
    end
  else if String.eqb event_name "ping" then []
  else
    (if show_raw_data config
     then [PrintRawData (format_raw_data event_name data)] else [])
    ++ (if show_detailed_logs config
        then [PrintEvent (format_event event_name data)] else []).

(** What [handle_sse_event] appends to the output file for an event. *)
Definition saved_by (config : PumpMonitorConfig) (event_name : string)
    (data : json) : list (string * json) :=
  if is_counted event_name && save_to_file config && json_truthy data
  then [(event_name, data)]
  else [].



(** ** config.py and the start of main.py *)

(** [s.replace(a, b)] for single characters. *)
Fixpoint replace_char (a b : ascii) (s : string) : string :=
  match s with
  | EmptyString => EmptyString
  | String c r => String (if Ascii.eqb c a then b else c) (replace_char a b r)
  end.

(** Whether the character [a] occurs in [s]. *)
Fixpoint has_char (a : ascii) (s : string) : bool :=
  match s with
  | EmptyString => false
  | String c r => Ascii.eqb c a || has_char a r
  end.

(** The fields of [PumpMonitorConfig] that [config.py] reads in
    [__post_init__] and in [validate]; the record [PumpMonitorConfig]
    above holds the fields that [client.py] reads. *)
Record ConfigFields : Type := {
  server_url : string;
  api_token : string;
  endpoint : string;
  connection_timeout : Z;
  output_file : option string
}.

(** [PumpMonitorConfig.__post_init__]. *)
Definition post_init (c : ConfigFields) : ConfigFields :=
  match output_file c with
  | None =>
      {| server_url := server_url c;
         api_token := api_token c;
         endpoint := endpoint c;
         connection_timeout := connection_timeout c;
         output_file :=
           Some ("pump_data_" ++ replace_char "/" "_" (endpoint c)
                 ++ ".jsonl") |}
  | Some _ => c
  end.

(** The messages of [validate], by what they report. *)
Inductive issue : Type :=
| ApiTokenEmpty
| ServerUrlEmpty
| ServerUrlScheme
| InvalidEndpoint
| ConnectionTimeoutLow.

Definition valid_endpoints : list string :=
  ["all"; "tokens/new"; "tokens/new/detailed"; "tokens/graduated";
   "trades/pump"; "trades/pumpswap"].

(** [PumpMonitorConfig.validate]. *)
Definition validate (c : ConfigFields) : list issue :=
  ((if PyStr.truthy (PyStr.strip (api_token c)) then [] else [ApiTokenEmpty])
   ++ (if PyStr.truthy (PyStr.strip (server_url c))
       then [] else [ServerUrlEmpty])
   ++ (if PyStr.startswith "http://" (server_url c)
          || PyStr.startswith "https://" (server_url c)
       then [] else [ServerUrlScheme])
   ++ (if existsb (String.eqb (endpoint c)) valid_endpoints
       then [] else [InvalidEndpoint])
   ++ (if connection_timeout c <? 5 then [ConnectionTimeoutLow] else []))%list.

(** [PumpMonitorConfig.is_valid]. *)
Definition is_valid (c : ConfigFields) : bool :=
  Nat.eqb (length (validate c)) 0.

(** The class defaults of these fields, before [__post_init__]. *)
Definition fields_default : ConfigFields :=
  {| server_url :=
       "https://muhammetakkurtt--pump-fun-real-time-monitor.apify.actor";
     api_token := "YOUR_API_TOKEN";
     endpoint := "all";
     connection_timeout := 15;
     output_file := None |}.

(** The options of [parse_arguments] that [create_config_from_args]
    reads; a string option that is not given is [None]. *)
Record arguments : Type := {
  arg_endpoint : option string;
  arg_api_token : option string;
  arg_server_url : option string;
  arg_quiet : bool;
  arg_debug : bool;
  arg_no_save : bool;
  arg_output_file : option string;
  arg_show_raw : bool
}.

(** The value of a string option when it is true in a condition, that
    is given and not empty. *)
Definition given (o : option string) : option string :=
  match o with
  | Some s => if PyStr.truthy s then Some s else None
  | None => None
  end.

(** [create_config_from_args]: [PumpMonitorConfig()] is built first,
    [__post_init__] included, and the options are then assigned to its
    fields. *)
Definition create_config_from_args (args : arguments)
  : ConfigFields * PumpMonitorConfig :=
  let built := post_init fields_default in
  ({| server_url := default (server_url built) (given (arg_server_url args));
      api_token := default (api_token built) (given (arg_api_token args));
      endpoint := default (endpoint built) (given (arg_endpoint args));
      connection_timeout := connection_timeout built;
      output_file :=
        match given (arg_output_file args) with
        | Some name => Some name
        | None => output_file built
        end |},
   {| stream_timeout := 180; reconnect_delay := 3; max_retries := 10;
      health_check_interval := 240; show_detailed_logs := true;
      show_stats_interval := 60;
      quiet_mode := if arg_quiet args then true else false;
      show_raw_data := if arg_show_raw args then true else false;
      save_to_file := if arg_no_save args then false else true;
      enable_debug_logging := if arg_debug args then true else false |}).

(** The configuration that [quick_start] builds: the token, the
    endpoint and the quiet flag are given to the constructor, so
    [__post_init__] sees them. *)
Definition quick_start_config (token endpoint_name : string) (quiet : bool)
  : ConfigFields * PumpMonitorConfig :=
  (post_init
     {| server_url := server_url fields_default;
        api_token := token;
        endpoint := endpoint_name;
        connection_timeout := connection_timeout fields_default;
        output_file := None |},
   {| stream_timeout := 180; reconnect_delay := 3; max_retries := 10;
      health_check_interval := 240; show_detailed_logs := true;
      show_stats_interval := 60; quiet_mode := quiet;
      show_raw_data := false; save_to_file := true;
      enable_debug_logging := false |}).

(** ** The first health check *)

(** What [check_server_health] prints about the server. *)
Record server_status : Type := {
  status_connected : json;
  status_total : json;
  status_processed : json
}.

(** [SSEClient.check_server_health], from the body of the answer of the
    health endpoint; [None] stands for a request that failed, a status
    that is an error or a body that is not JSON.  Outside quiet mode the
    body is read with [get], which raises on a value that is not an
    object, and the handler of the function turns that into [False]. *)
Definition check_server_health (config : PumpMonitorConfig)
    (response : option json) : bool * option server_status :=
  match response with
  | None => (false, None)
  | Some health_data =>
      if quiet_mode config then (true, None)
      else
        match health_data with
        | JObj members =>
            let connected_now :=
              default (JBool false) (PyDict.get "connected" members) in
            match default (JObj []) (PyDict.get "connections" members) with
            | JObj conns =>
                let total_conns :=
                  default (JInt 0) (PyDict.get "total" conns) in
                let processed :=
                  default (JInt 0)
                    (PyDict.get "messages_processed" members) in
                (true, Some {| status_connected := connected_now;
                               status_total := total_conns;
                               status_processed := processed |})
            | _ => (false, None)
            end
        | _ => (false, None)
        end
  end.

(** Whether the body of the [for] loop of [_run_sse_monitor], started
    in the world [w], gets as far as the block that hands the event
    over: no shutdown is requested, no more than [stream_timeout] has
    passed since [last_data_time], and the health check, when it is
    due, succeeds.  The check is due when no time stamp is recorded or
    the stamp is zero, and when more than [health_check_interval] has
    passed since the stamp at the next clock reading. *)
Definition reaches_handler (env : environment) (config : PumpMonitorConfig)
    (shutdown_handler : bool) (w : world) : bool :=
  negb (shutdown_handler && should_shutdown env (polls w))
  && negb (clock env (ticks w) - last_data_time (client w)
           >? stream_timeout config)
  && match last_health_check (client w) with
     | None => probe_result env (probes w)
     | Some stamp =>
         if (stamp =? 0)
            || (clock env (S (ticks w)) - stamp
                >? health_check_interval config)
         then probe_result env (probes w)
         else true
     end.

(** The world in which the [for] loop over a stream starts, when the
    turn of the [while] loop that began in [w] was not stopped by a
    shutdown request and its connection succeeded: the shutdown handler
    was polled once, the connection was counted, and the clock was read
    once for both time stamps. *)
Definition stream_start (env : environment) (config : PumpMonitorConfig)
    (shutdown_handler : bool) (w : world) : world :=
  let w0 := if shutdown_handler then next_poll w else w in
  let w1 :=
    set_client
      {| connection_id := connection_id (client w);
         last_data_time := clock env (ticks w);
         last_health_check := Some (clock env (ticks w));
         connected := true |}
      (next_tick (next_connect w0)) in
  if quiet_mode config then w1 else add_console PrintStreamConnected w1.

(** ** Sample inputs *)

(** [s] between double quotes. *)
Definition quoted (s : string) : string :=
  String "034" (s ++ String "034" EmptyString).

(** The data line of the trade example. *)
Definition trade_data_line : string :=
  "data: {" ++ quoted "isBuy" ++ ":true," ++ quoted "solAmount" ++ ":"
  ++ quoted "1.5" ++ "}".

(** An integer of 4301 digits, one more than [int] converts. *)
Definition big_integer : string :=
  string_of_list_ascii (repeat "1"%char 4301).

(** The default values of [PumpMonitorConfig]. *)
Definition config_default : PumpMonitorConfig :=
  {| stream_timeout := 180; reconnect_delay := 3; max_retries := 10;
     health_check_interval := 240; show_detailed_logs := true;
     show_stats_interval := 60; quiet_mode := false; show_raw_data := false;
     save_to_file := true; enable_debug_logging := false |}.

(** A clock that advances by one second at each reading. *)
Definition clock_from (start : Z) (k : nat) : Z := start + Z.of_nat k.

(** A server that accepts every connection and sends [lines]. *)
Definition env_up (lines : list string) : environment :=
  {| clock := clock_from 1000;
     should_shutdown := fun _ => false;
     connect_result :=
       fun _ => Some {| stream_lines := map Some lines;
                        stream_fault := false |};
     probe_result := fun _ => true |}.

(** A server that refuses every connection. *)
Definition env_down : environment :=
  {| clock := clock_from 1000;
     should_shutdown := fun _ => false;
     connect_result := fun _ => None;
     probe_result := fun _ => false |}.

(** The default configuration in quiet mode. *)
Definition config_quiet : PumpMonitorConfig :=
  {| stream_timeout := 180; reconnect_delay := 3; max_retries := 10;
     health_check_interval := 240; show_detailed_logs := true;
     show_stats_interval := 60; quiet_mode := true; show_raw_data := false;
     save_to_file := true; enable_debug_logging := false |}.

(** The default configuration with the output file switched off. *)
Definition config_no_save : PumpMonitorConfig :=
  {| stream_timeout := 180; reconnect_delay := 3; max_retries := 10;
     health_check_interval := 240; show_detailed_logs := true;
     show_stats_interval := 60; quiet_mode := false; show_raw_data := false;
     save_to_file := false; enable_debug_logging := false |}.

(** A server whose stream is read after a long pause: the clock jumps
    by 500 seconds between the connection and the first event, and the
    health probe fails. *)
Definition env_slow (lines : list string) : environment :=
  {| clock := fun k => clock_from 1000 (500 * k);
     should_shutdown := fun _ => false;
     connect_result :=
       fun _ => Some {| stream_lines := map Some lines;
                        stream_fault := false |};
     probe_result := fun _ => false |}.

(** A connected client that saw data at time 1000 and whose last
    health check dates from time 500. *)
Definition world_probe_due : world :=
  set_client
    {| connection_id := JNull; last_data_time := 1000;
       last_health_check := Some 500; connected := true |}
    (world_init 999).

(** Formatters that print the name of the event. *)
Definition format_name (event_type : string) (_ : json) : string :=
  event_type.

(** ** Strings *)

Lemma startswith_app (p r : string) : PyStr.startswith p (p ++ r) = true.
Proof.
  unfold PyStr.startswith.
  induction p as [|c p IH]; simpl.
  - now destruct r.
  - destruct (ascii_dec c c) as [_|ne]; [exact IH | now elim ne].
Qed.

Lemma slice_from_app (p r : string) :
  PyStr.slice_from (String.length p) (p ++ r) = r.
Proof. induction p as [|c p IH]; simpl; [now destruct r | exact IH]. Qed.

Lemma startswith_inv (p s : string) :
  PyStr.startswith p s = true -> s = p ++ PyStr.slice_from (String.length p) s.
Proof.
  unfold PyStr.startswith. revert s.
  induction p as [|c p IH]; intros s H; simpl.
  - now destruct s.
  - destruct s as [|a s]; simpl in H; [discriminate|].
    destruct (ascii_dec c a) as [->|]; [|discriminate].
    change (String a s = String a (p ++ PyStr.slice_from (String.length p) s)).
    f_equal. now apply IH.
Qed.

(** Two prefixes with different first characters exclude each other. *)
Lemma startswith_other (c d : ascii) (p q s : string) :
  c <> d ->
  PyStr.startswith (String c p) s = true ->
  PyStr.startswith (String d q) s = false.
Proof.
  unfold PyStr.startswith. intros ne H.
  destruct s as [|a s]; simpl in *; [discriminate|].
  destruct (ascii_dec c a) as [<-|]; [|discriminate].
  destruct (ascii_dec d c) as [->|]; [now elim ne | reflexivity].
Qed.

Lemma startswith_truthy (c : ascii) (p s : string) :
  PyStr.startswith (String c p) s = true -> PyStr.truthy s = true.
Proof. unfold PyStr.startswith. now destruct s. Qed.

(** ** The line decoder *)

Section Decoder.

Variable json_loads : string -> result json.

#[local] Abbreviation parse_sse_line := (parse_sse_line json_loads).
#[local] Abbreviation parse_fields := (parse_fields json_loads).

(** No call of the decoder raises. *)
Lemma parse_sse_line_returns (line : string) :
  exists parsed, parse_sse_line line = Ok parsed.
Proof.
  unfold parse_sse_line.
  destruct (negb (PyStr.truthy line) || PyStr.startswith ":" line);
    [now exists None|].
  destruct (parse_fields line) as [parsed|e]; eauto.
Qed.

(** A recognised field is not skipped as blank or as a comment. *)
Lemma field_not_skipped (c : ascii) (p line : string) :
  c <> ":"%char ->
  PyStr.startswith (String c p) line = true ->
  negb (PyStr.truthy line) || PyStr.startswith ":" line = false.
Proof.
  intros ne H.
  rewrite (startswith_truthy _ _ _ H). simpl.
  now apply (startswith_other c ":" p EmptyString line).
Qed.

Lemma parse_event_line (line : string) :
  is_event_line line = true ->
  parse_sse_line line = Ok (Some (EventName (trimmed_remainder 7 line))).
Proof.
  unfold is_event_line, parse_sse_line, parse_fields. intros H.
  rewrite (field_not_skipped "e" _ line) by (discriminate || exact H).
  now rewrite H.
Qed.

Lemma parse_data_line (line : string) :
  is_data_line line = true ->
  parse_sse_line line =
    match json_loads (trimmed_remainder 6 line) with
    | Ok v => Ok (Some (Data v))
    | Raise JSONDecodeError =>
        Ok (Some (Data (text_payload (trimmed_remainder 6 line))))
    | Raise OtherException => Ok None
    end.
Proof.
  unfold is_data_line, parse_sse_line, parse_fields, trimmed_remainder.
  intros H.
  rewrite (field_not_skipped "d" _ line) by (discriminate || exact H).
  rewrite (startswith_other "d" "e" _ "vent: " line) by (discriminate || exact H).
  rewrite H.
  now destruct (json_loads _) as [v|[]].
Qed.

Lemma parse_id_line (line : string) :
  is_id_line line = true ->
  parse_sse_line line = Ok (Some (Id (trimmed_remainder 4 line))).
Proof.
  unfold is_id_line, parse_sse_line, parse_fields. intros H.
  rewrite (field_not_skipped "i" _ line) by (discriminate || exact H).
  rewrite (startswith_other "i" "e" _ "vent: " line) by (discriminate || exact H).
  rewrite (startswith_other "i" "d" _ "ata: " line) by (discriminate || exact H).
  now rewrite H.
Qed.

(** A blank line and a comment line decode to [None]. *)
Lemma parse_blank_line : parse_sse_line EmptyString = Ok None.
Proof. reflexivity. Qed.

Lemma parse_comment_line (line : string) :
  PyStr.startswith ":" line = true -> parse_sse_line line = Ok None.
Proof.
  unfold parse_sse_line. intros ->. now rewrite orb_true_r.
Qed.

End Decoder.

(** ** The event assembler *)

Section Assembler.

Variable json_loads : string -> result json.

#[local] Abbreviation parse_sse_line := (parse_sse_line json_loads).
#[local] Abbreviation listen_step := (listen_step json_loads).
#[local] Abbreviation listen_from := (listen_from json_loads).
#[local] Abbreviation listen_stream := (listen_stream json_loads).
#[local] Abbreviation decodes := (decodes json_loads).
#[local] Abbreviation data_value := (data_value json_loads).
#[local] Abbreviation last_data := (last_data json_loads).
#[local] Abbreviation absorb := (absorb json_loads).

(** An event line starts a new event, whatever was in progress. *)
Lemma listen_step_event (current : option sse_event) (line : string) :
  is_event_line line = true ->
  listen_step current (Some line) =
    Ok (Some (new_event (trimmed_remainder 7 line)), None).
Proof.
  intros H. unfold listen_step. now rewrite parse_event_line.
Qed.

(** A data or id line is absorbed by the event in progress. *)
Lemma listen_step_field (ev : sse_event) (line : string) :
  is_data_line line || is_id_line line = true ->
  (is_data_line line = true -> decodes line) ->
  listen_step (Some ev) (Some line) = Ok (Some (absorb ev line), None).
Proof.
  intros H dec. unfold listen_step, absorb.
  destruct (is_data_line line) eqn:Hd.
  - rewrite parse_data_line by exact Hd.
    specialize (dec eq_refl).
    unfold decodes, data_value in *.
    destruct (json_loads _) as [v|[]]; [reflexivity | reflexivity | now elim dec].
  - simpl in H. rewrite H. now rewrite parse_id_line.
Qed.

(** A line that decodes to [None] hands out the event in progress. *)
Lemma listen_step_none (ev : sse_event) (line : string) :
  parse_sse_line line = Ok None ->
  listen_step (Some ev) (Some line) = Ok (None, Some ev).
Proof. intros H. unfold listen_step. now rewrite H. Qed.

Lemma listen_from_cons (current : option sse_event) (line : option string)
    (rest : list (option string)) :
  listen_from current (line :: rest) =
    match listen_step current line with
    | Raise _ => ([], true)
    | Ok (current', yielded) =>
        let '(events, failed) := listen_from current' rest in
        (match yielded with
         | Some ev => ev :: events
         | None => events
         end, failed)
    end.
Proof. reflexivity. Qed.

(** The lines of a frame between its event line and its end. *)
Lemma listen_from_fields (ev : sse_event) (body : list string)
    (rest : list (option string)) :
  Forall (fun l => is_data_line l || is_id_line l = true) body ->
  Forall (fun l => is_data_line l = true -> decodes l) body ->
  listen_from (Some ev) (map Some body ++ rest) =
    listen_from (Some (fold_left absorb body ev)) rest.
Proof.
  revert ev. induction body as [|l body IH]; intros ev Hf Hd; [reflexivity|].
  inversion Hf; inversion Hd; subst.
  rewrite map_cons, <- app_comm_cons, listen_from_cons.
  rewrite listen_step_field by assumption.
  rewrite IH by assumption.
  now destruct (listen_from _ rest).
Qed.

(** With only data and id lines between two event lines, the event in
    progress at the second event line is dropped without being yielded. *)
Lemma second_event_line_discards_first
    (head1 head2 : string) (body : list string)
    (rest : list (option string)) :
  is_event_line head1 = true ->
  is_event_line head2 = true ->
  Forall (fun l => is_data_line l || is_id_line l = true) body ->
  Forall (fun l => is_data_line l = true -> decodes l) body ->
  listen_from None (Some head1 :: map Some body ++ Some head2 :: rest) =
    listen_from (Some (new_event (trimmed_remainder 7 head2))) rest.
Proof.
  intros H1 H2 Hf Hd.
  rewrite listen_from_cons, listen_step_event by exact H1.
  rewrite listen_from_fields by assumption.
  rewrite listen_from_cons, listen_step_event by exact H2.
  now destruct (listen_from _ rest).
Qed.

Lemma absorb_event (ev : sse_event) (body : list string) :
  ev_event (fold_left absorb body ev) = ev_event ev.
Proof.
  revert ev. induction body as [|l body IH]; intros ev; [reflexivity|].
  simpl. rewrite IH. unfold absorb.
  now destruct (is_data_line l), (is_id_line l).
Qed.

Lemma data_and_id_exclusive (l : string) :
  is_data_line l = true -> is_id_line l = false.
Proof.
  unfold is_data_line, is_id_line. intros H.
  now apply (startswith_other "d" "i" "ata: " "d: " l).
Qed.

Lemma absorb_data (ev : sse_event) (body : list string) :
  ev_data (fold_left absorb body ev) =
    match last_data body with
    | Some d => Some d
    | None => ev_data ev
    end.
Proof.
  revert ev. induction body as [|l body IH] using rev_ind; intros ev;
    [reflexivity|].
  rewrite fold_left_app. simpl.
  unfold last_data. rewrite rev_app_distr. simpl.
  unfold absorb at 1.
  destruct (is_data_line l) eqn:Hd; [reflexivity|].
  destruct (is_id_line l); simpl; apply IH.
Qed.

Lemma absorb_id (ev : sse_event) (body : list string) :
  ev_id (fold_left absorb body ev) =
    match last_id body with
    | Some i => Some i
    | None => ev_id ev
    end.
Proof.
  revert ev. induction body as [|l body IH] using rev_ind; intros ev;
    [reflexivity|].
  rewrite fold_left_app. simpl.
  unfold last_id. rewrite rev_app_distr. simpl.
  unfold absorb at 1.
  destruct (is_data_line l) eqn:Hd.
  - rewrite (data_and_id_exclusive l Hd). simpl. apply IH.
  - destruct (is_id_line l); [reflexivity | apply IH].
Qed.

Lemma absorb_frame (name : string) (body : list string) :
  fold_left absorb body (new_event name) =
    {| ev_event := name; ev_data := last_data body; ev_id := last_id body |}.
Proof.
  pose proof (absorb_event (new_event name) body) as He.
  pose proof (absorb_data (new_event name) body) as Hd.
  pose proof (absorb_id (new_event name) body) as Hi.
  destruct (fold_left absorb body (new_event name)) as [e d i].
  simpl in *. subst e. f_equal.
  - rewrite Hd. now destruct (last_data body).
  - rewrite Hi. now destruct (last_id body).
Qed.

Lemma frame_yields (head : string) (body : list string) :
  is_event_line head = true ->
  Forall (fun l => is_data_line l || is_id_line l = true) body ->
  Forall (fun l => is_data_line l = true -> decodes l) body ->
  listen_stream (map Some (head :: body ++ [EmptyString])) =
    [{| ev_event := trimmed_remainder 7 head;
        ev_data := last_data body;
        ev_id := last_id body |}].
Proof.
  intros Hh Hf Hd.
  unfold listen_stream.
  rewrite map_cons, map_app, listen_from_cons.
  rewrite listen_step_event by exact Hh.
  rewrite listen_from_fields by assumption.
  rewrite absorb_frame. reflexivity.
Qed.


End Assembler.

(** C4, as amended. What [parse_sse_line] returns for a data line
    follows from what [json.loads] does on the payload with its leading
    and trailing whitespace removed.  When it raises [JSONDecodeError],
    the line gives the data token of the object with [message] the
    trimmed payload and [is_text] true.  When it raises any other
    exception, as it does on an integer of more than 4300 digits or on
    nesting past the recursion limit, the line gives [None].  When it
    returns a value, the line gives the data token of that value.  And
    for every line, [parse_sse_line] returns a token or [None]: it
    never raises. *)
Theorem invalid_json_is_wrapped_trimmed
    (json_loads : string -> result json) :
  (forall payload : string,
     json_loads (PyStr.strip payload) = Raise JSONDecodeError ->
     parse_sse_line json_loads ("data: " ++ payload) =
       Ok (Some (Data (JObj [("message", JStr (PyStr.strip payload));
                             ("is_text", JBool true)]))))
  /\ (forall (payload : string) (e : exn),
        json_loads (PyStr.strip payload) = Raise e ->
        e <> JSONDecodeError ->
        parse_sse_line json_loads ("data: " ++ payload) = Ok None)
  /\ (forall (payload : string) (v : json),
        json_loads (PyStr.strip payload) = Ok v ->
        parse_sse_line json_loads ("data: " ++ payload) = Ok (Some (Data v)))
  /\ (forall line : string,
        exists parsed, parse_sse_line json_loads line = Ok parsed).
Proof.
  assert (Hline : forall payload,
            parse_sse_line json_loads ("data: " ++ payload) =
              match json_loads (PyStr.strip payload) with
              | Ok v => Ok (Some (Data v))
              | Raise JSONDecodeError =>
                  Ok (Some (Data (text_payload (PyStr.strip payload))))
              | Raise OtherException => Ok None
              end).
  { intros payload.
    rewrite parse_data_line by apply startswith_app.
    unfold trimmed_remainder.
    change 6%nat with (String.length "data: ").
    now rewrite slice_from_app. }
  repeat split.
  - intros payload H. now rewrite Hline, H.
  - intros payload e H ne. rewrite Hline, H.
    destruct e; [now elim ne | reflexivity].
  - intros payload v H. now rewrite Hline, H.
  - apply parse_sse_line_returns.
Qed.

(** ** Examples on the reference decoder *)


Lemma invalid_json_is_wrapped_trimmed_witness :
  parse_sse_line JsonRef.json_loads ("data: " ++ "  oops ") =
    Ok (Some (Data (JObj [("message", JStr "oops");
                          ("is_text", JBool true)])))
  /\ parse_sse_line JsonRef.json_loads ("data: " ++ "[" ++ big_integer) =
       Ok None
  /\ parse_sse_line JsonRef.json_loads ("data: " ++ " [1] ") =
       Ok (Some (Data (JArr [JInt 1]))).
Proof.
  destruct (invalid_json_is_wrapped_trimmed JsonRef.json_loads)
    as (Hwrap & Hother & Hvalue & _).
  split; [|split].
  - apply (Hwrap "  oops "). vm_compute. reflexivity.
  - apply (Hother ("[" ++ big_integer) OtherException).
    + vm_compute. reflexivity.
    + discriminate.
  - apply (Hvalue " [1] "). vm_compute. reflexivity.
Defined.

(** The claim C4 as stated fails in two ways.  The payload ["  oops "]
    is not valid JSON, and the message wrapped is not that payload but
    the payload trimmed.  And the payload made of an opening bracket
    and an integer of 4301 digits is not valid JSON either, yet the
    line gives no token at all: the decoder raises [ValueError] on the
    integer before it misses the closing bracket. *)
Lemma raw_payload_is_not_kept :
  JsonRef.json_loads "  oops " = Raise JSONDecodeError
  /\ parse_sse_line JsonRef.json_loads ("data: " ++ "  oops ")
     <> Ok (Some (Data (JObj [("message", JStr "  oops ");
                              ("is_text", JBool true)])))
  /\ parse_sse_line JsonRef.json_loads ("data: " ++ "[" ++ big_integer)
     = Ok None.
Proof.
  split; [reflexivity | split; [vm_compute; discriminate|]].
  vm_compute. reflexivity.
Qed.


(** C2. A comment line and a line with an unknown field, met while an
    event is in progress, make [listen_stream] yield that event at
    once: the data line that follows finds no event and is dropped. *)
Theorem comment_line_flushes_event :
  listen_stream JsonRef.json_loads
    (map Some ["event: trade"; ": keep-alive"; "data: [1]"; EmptyString])
    = [new_event "trade"]
  /\ listen_stream JsonRef.json_loads
       (map Some ["event: trade"; "retry: 3000"; "data: [1]"; EmptyString])
     = [new_event "trade"]
  /\ listen_stream JsonRef.json_loads
       (map Some ["event: trade"; "data: [1]"; EmptyString])
     = [with_data (JArr [JInt 1]) (new_event "trade")].
Proof. repeat split. Qed.

(** C5. With a comment line between two event lines and no blank line,
    the first event in progress is not discarded: it is yielded at the
    comment line, before the second event. *)
Theorem unterminated_event_survives_comment :
  listen_stream JsonRef.json_loads
    (map Some ["event: a"; "data: 1"; ": keep-alive"; "event: b"; "data: 2";
               EmptyString])
  = [with_data (JInt 1) (new_event "a"); with_data (JInt 2) (new_event "b")].
Proof. reflexivity. Qed.

(** ** The connection manager *)

Section Connection.

Variable env : environment.
Variable config : PumpMonitorConfig.

#[local] Abbreviation needs_health_check := (needs_health_check env config).
#[local] Abbreviation is_connection_stale := (is_connection_stale env config).
#[local] Abbreviation connect_stream := (connect_stream env).

Lemma is_connection_stale_eq (w : world) :
  is_connection_stale w =
    (clock env (ticks w) - last_data_time (client w) >? stream_timeout config,
     next_tick w).
Proof. reflexivity. Qed.

(** C6. [is_connection_stale] read at the time [now] returns true if and
    only if [now - last_data_time] is strictly greater than
    [stream_timeout]; it returns false at and below the threshold. *)
Theorem stale_iff_beyond_timeout (w : world) :
  (fst (is_connection_stale w) = true <->
   clock env (ticks w) - last_data_time (client w) > stream_timeout config)
  /\ (fst (is_connection_stale w) = false <->
      clock env (ticks w) - last_data_time (client w) <= stream_timeout config).
Proof.
  rewrite is_connection_stale_eq. simpl.
  destruct (Z.gtb_spec (clock env (ticks w) - last_data_time (client w))
              (stream_timeout config)); split; split; intros; try lia;
    try reflexivity; discriminate.
Qed.

Lemma needs_health_check_eq (w : world) :
  needs_health_check w =
    match last_health_check (client w) with
    | None => (true, w)
    | Some t =>
        if t =? 0 then (true, w)
        else (clock env (ticks w) - t >? health_check_interval config,
              next_tick w)
    end.
Proof.
  unfold needs_health_check, bind, gets, ret, time_time.
  destruct (last_health_check (client w)) as [t|]; [|reflexivity].
  now destruct (t =? 0).
Qed.

Lemma connect_stream_success (w : world) (body : stream) :
  connect_result env (connects w) = Some body ->
  connect_stream w =
    (Some body,
     set_client
       {| connection_id := connection_id (client w);
          last_data_time := clock env (ticks w);
          last_health_check := Some (clock env (ticks w));
          connected := true |}
       (next_tick (next_connect w))).
Proof.
  intros H.
  unfold connect_stream, bind, ret, update_client, modify,
    time_time.
  rewrite H. reflexivity.
Qed.

Lemma connect_stream_failure (w : world) :
  connect_result env (connects w) = None ->
  connect_stream w =
    (None, set_client (set_connected false (client w)) (next_connect w)).
Proof.
  intros H.
  unfold connect_stream, bind, ret, update_client, modify.
  rewrite H. reflexivity.
Qed.

(** C3, as amended. [needs_health_check] returns true when no time
    stamp of a health check is recorded, or the recorded stamp is zero,
    and otherwise exactly when more than [health_check_interval] has
    elapsed since the stamp.  A successful [connect_stream] records the
    time of the connection as that stamp, so the first call after it
    returns true only when more than the interval has elapsed since the
    connection (or the clock read zero at the connection). *)
Theorem health_check_due_after_interval :
  (forall w : world,
     fst (needs_health_check w) = true <->
     match last_health_check (client w) with
     | None => True
     | Some t =>
         t = 0 \/ clock env (ticks w) - t > health_check_interval config
     end)
  /\ (forall (w : world) (body : stream),
        connect_result env (connects w) = Some body ->
        last_health_check (client (snd (connect_stream w)))
          = Some (clock env (ticks w))
        /\ fst (needs_health_check (snd (connect_stream w)))
           = (clock env (ticks w) =? 0)
             || (clock env (S (ticks w)) - clock env (ticks w)
                 >? health_check_interval config)).
Proof.
  split.
  - intros w. rewrite needs_health_check_eq.
    destruct (last_health_check (client w)) as [t|]; [|easy].
    destruct (Z.eqb_spec t 0) as [->|ne]; simpl; [intuition|].
    destruct (Z.gtb_spec (clock env (ticks w) - t)
                (health_check_interval config)); split; intros Hd;
      try reflexivity; try discriminate;
      first [right; lia | destruct Hd; [contradiction | lia]].
  - intros w body H.
    rewrite (connect_stream_success w body H).
    split; [reflexivity|].
    rewrite needs_health_check_eq. simpl.
    now destruct (clock env (ticks w) =? 0).
Qed.

End Connection.

Lemma health_check_due_after_interval_witness :
  fst (needs_health_check (env_up []) config_default
         (snd (connect_stream (env_up []) (world_init 999)))) = false.
Proof.
  apply (proj2 (health_check_due_after_interval (env_up []) config_default)
           (world_init 999) {| stream_lines := []; stream_fault := false |}).
  reflexivity.
Defined.

(** The claim C3 as stated fails: one second after a successful
    connection, with the default interval of 240 seconds, the first
    call of [needs_health_check] returns false. *)
Lemma first_check_after_connect_not_due :
  fst (connect_stream (env_up []) (world_init 999)) <> None
  /\ last_data_time
       (client (snd (connect_stream (env_up []) (world_init 999)))) = 1000
  /\ fst (needs_health_check (env_up []) config_default
            (snd (connect_stream (env_up []) (world_init 999)))) <> true.
Proof. repeat split; vm_compute; discriminate. Qed.

(** ** StatsManager *)

Lemma sum_insert (m : gmap string Z) (k : string) (v : Z) :
  map_fold (fun _ x acc => x + acc) 0 (<[k := v]> m) =
    v + map_fold (fun _ x acc => x + acc) 0 (delete k m).
Proof.
  rewrite <- insert_delete_eq.
  apply (map_fold_insert_L (fun _ x acc => x + acc)).
  - intros; lia.
  - apply lookup_delete_eq.
Qed.

Lemma sum_lookup (m : gmap string Z) (k : string) :
  map_fold (fun _ x acc => x + acc) 0 m =
    default 0 (m !! k) + map_fold (fun _ x acc => x + acc) 0 (delete k m).
Proof.
  destruct (m !! k) as [v|] eqn:E; simpl.
  - apply (map_fold_delete_L (fun _ x acc => x + acc)); [intros; lia | exact E].
  - now rewrite delete_id.
Qed.

Lemma counted_add_event (t : string) (s : StatsManager) :
  counted (add_event t s) = counted s + 1.
Proof.
  unfold counted, add_event, count_of. simpl.
  rewrite sum_insert, (sum_lookup (event_counts s) t). lia.
Qed.

Lemma stats_apply_sum (s : StatsManager) (c : stats_call) :
  total_events s = counted s ->
  total_events (stats_apply s c) = counted (stats_apply s c).
Proof.
  intros H. destruct c as [t|n]; simpl.
  - rewrite counted_add_event. lia.
  - exact H.
Qed.

Lemma fold_stats_sum (calls : list stats_call) (s : StatsManager) :
  total_events s = counted s ->
  total_events (fold_left stats_apply calls s)
    = counted (fold_left stats_apply calls s).
Proof.
  revert s. induction calls as [|c calls IH]; intros s H; simpl;
    [exact H | apply IH, stats_apply_sum, H].
Qed.

(** C9. From a fresh [StatsManager], after every finite sequence of
    [add_event] and [update_connection_count] calls, [total_events] is
    the sum of the values of [event_counts]; and [add_event t] adds
    exactly one to [total_events] and to the count of [t], and leaves
    the other counts as they are. *)
Theorem total_events_is_sum_of_counts :
  (forall calls : list stats_call,
     total_events (stats_run calls) = counted (stats_run calls))
  /\ (forall (t : string) (s : StatsManager),
        total_events (add_event t s) = total_events s + 1
        /\ count_of t (add_event t s) = count_of t s + 1
        /\ (forall t' : string,
              t' <> t -> count_of t' (add_event t s) = count_of t' s)).
Proof.
  split.
  - intros calls. apply fold_stats_sum. reflexivity.
  - intros t s. repeat split.
    + unfold count_of, add_event. simpl. now rewrite lookup_insert_eq.
    + intros t' ne. unfold count_of, add_event. simpl.
      now rewrite lookup_insert_ne by congruence.
Qed.

(** ** Operations that leave the connection count alone *)

Lemma same_connects_refl (w : world) : same_connects w w.
Proof. split; [reflexivity | apply Nat.le_refl]. Qed.

Lemma same_connects_trans (a b c : world) :
  same_connects a b -> same_connects b c -> same_connects a c.
Proof.
  intros [H1 H2] [H3 H4]. split; [congruence | eapply Nat.le_trans; eauto].
Qed.

Lemma keeps_ret {A : Type} (a : A) : keeps (ret a).
Proof. intros w. apply same_connects_refl. Qed.

Lemma keeps_bind {A B : Type} (m : M A) (k : A -> M B) :
  keeps m -> (forall a, keeps (k a)) -> keeps (bind m k).
Proof.
  intros Hm Hk w. unfold bind.
  specialize (Hm w). destruct (m w) as [a w1]. simpl in Hm.
  eapply same_connects_trans; [exact Hm | apply Hk].
Qed.

Lemma keeps_gets {A : Type} (f : world -> A) : keeps (gets f).
Proof. intros w. apply same_connects_refl. Qed.

Lemma keeps_modify (f : world -> world) :
  (forall w, same_connects w (f w)) -> keeps (modify f).
Proof. intros H w. apply H. Qed.

Lemma keeps_when (b : bool) (m : M unit) : keeps m -> keeps (when b m).
Proof. intros H. destruct b; [exact H | apply keeps_ret]. Qed.

Lemma keeps_print (p : printed) : keeps (print p).
Proof. apply keeps_modify. intros w. now split. Qed.

Lemma keeps_update_client (f : SSEClient -> SSEClient) :
  keeps (update_client f).
Proof. apply keeps_modify. intros w. now split. Qed.

Lemma keeps_save_event (event_type : string) (data : json) :
  keeps (save_event event_type data).
Proof.
  unfold save_event. destruct (json_truthy data); [|apply keeps_ret].
  apply keeps_modify. intros w. now split.
Qed.

Create HintDb keeps.

#[local] Hint Resolve keeps_ret keeps_gets keeps_print keeps_update_client
  keeps_save_event keeps_when : keeps.

(** ** The session controller *)

Section Controller.

Variable json_loads : string -> result json.
Variable format_event : string -> json -> string.
Variable format_raw_data : string -> json -> string.
Variable env : environment.
Variable config : PumpMonitorConfig.
Variable shutdown_handler : bool.

#[local] Abbreviation handle_sse_event :=
  (handle_sse_event format_event format_raw_data env config).
#[local] Abbreviation dispatch_event :=
  (dispatch_event format_event format_raw_data env config).
#[local] Abbreviation process_event :=
  (process_event format_event format_raw_data env config shutdown_handler).
#[local] Abbreviation process_events :=
  (process_events format_event format_raw_data env config shutdown_handler).
#[local] Abbreviation monitor_turn :=
  (monitor_turn json_loads format_event format_raw_data env config
     shutdown_handler).
#[local] Abbreviation monitor_loop :=
  (monitor_loop json_loads format_event format_raw_data env config
     shutdown_handler).

(** C8. Handling a ["ping"] event sets [last_data_time] to the current
    time and changes nothing else of the client: the connection id, the
    time stamp of the last health check, the [connected] flag, the
    statistics, the console and the output file are as before. *)
Theorem ping_only_updates_data_time (data : json) (w : world) :
  last_data_time (client (snd (handle_sse_event "ping" data w)))
    = clock env (ticks w)
  /\ connection_id (client (snd (handle_sse_event "ping" data w)))
     = connection_id (client w)
  /\ last_health_check (client (snd (handle_sse_event "ping" data w)))
     = last_health_check (client w)
  /\ connected (client (snd (handle_sse_event "ping" data w)))
     = connected (client w)
  /\ stats (snd (handle_sse_event "ping" data w)) = stats w
  /\ console (snd (handle_sse_event "ping" data w)) = console w
  /\ file (snd (handle_sse_event "ping" data w)) = file w.
Proof. repeat split. Qed.

Lemma dispatch_event_handled (event : sse_event) (w : world) :
  handled (snd (dispatch_event event w)) =
    (handled w ++
     (if PyStr.truthy (ev_event event)
      then [(ev_event event, event_data event)]
      else []))%list.
Proof.
  unfold dispatch_event, when.
  destruct (PyStr.truthy (ev_event event)); simpl; [|now rewrite app_nil_r].
  unfold handle_sse_event, bind, modify, update_data_time,
    time_time, update_client, modify, ret, when, handle_connected, print,
    save_event.
  simpl.
  destruct (String.eqb (ev_event event) "connected").
  - destruct (event_data event); try reflexivity.
    simpl. now destruct (quiet_mode config).
  - destruct (String.eqb (ev_event event) "ping"); [reflexivity|].
    simpl.
    destruct (show_raw_data config), (show_detailed_logs config),
      (quiet_mode config), (save_to_file config),
      (json_truthy (event_data event)); reflexivity.
Qed.

Lemma keeps_time_time : keeps (time_time env).
Proof. intros w. now split. Qed.

Lemma keeps_shutdown_requested :
  keeps (shutdown_requested env shutdown_handler).
Proof.
  unfold shutdown_requested. destruct shutdown_handler; [|apply keeps_ret].
  intros w. split; [reflexivity | simpl; lia].
Qed.

Lemma keeps_is_connection_stale : keeps (is_connection_stale env config).
Proof.
  apply keeps_bind; [apply keeps_time_time | intros now].
  apply keeps_bind; [apply keeps_gets | intros last; apply keeps_ret].
Qed.

Lemma keeps_needs_health_check : keeps (needs_health_check env config).
Proof.
  apply keeps_bind; [apply keeps_gets | intros [t|]; [|apply keeps_ret]].
  destruct (t =? 0); [apply keeps_ret|].
  apply keeps_bind; [apply keeps_time_time | intros now; apply keeps_ret].
Qed.

Lemma keeps_perform_health_check : keeps (perform_health_check env).
Proof.
  apply keeps_bind; [intros w; now split | intros [|]; [|apply keeps_ret]].
  apply keeps_bind; [apply keeps_time_time | intros now].
  apply keeps_bind; [apply keeps_update_client | intros _; apply keeps_ret].
Qed.

Lemma keeps_handle_sse_event (event_name : string) (data : json) :
  keeps (handle_sse_event event_name data).
Proof.
  apply keeps_bind; [apply keeps_modify; intros w; now split | intros _].
  apply keeps_bind.
  { apply keeps_bind; [apply keeps_time_time | intros now].
    apply keeps_update_client. }
  intros _.
  destruct (String.eqb event_name "connected").
  { unfold handle_connected. destruct data; auto with keeps.
    apply keeps_bind; auto with keeps. }
  destruct (String.eqb event_name "ping"); [apply keeps_ret|].
  apply keeps_bind; [apply keeps_modify; intros w; now split | intros _].
  repeat (apply keeps_bind; [auto with keeps | intros _]).
  auto with keeps.
Qed.

Lemma keeps_dispatch_event (event : sse_event) : keeps (dispatch_event event).
Proof. apply keeps_when, keeps_handle_sse_event. Qed.

Lemma keeps_process_event (event : sse_event) (t : Z) :
  keeps (process_event event t).
Proof.
  apply keeps_bind; [apply keeps_shutdown_requested | intros [|]].
  { apply keeps_bind; auto with keeps. }
  apply keeps_bind; [apply keeps_is_connection_stale | intros [|]].
  { apply keeps_bind; auto with keeps. }
  apply keeps_bind; [apply keeps_needs_health_check | intros due].
  apply keeps_bind.
  { destruct due; [apply keeps_perform_health_check | apply keeps_ret]. }
  intros [|]; simpl.
  - apply keeps_bind; [apply keeps_dispatch_event | intros _].
    apply keeps_bind; [apply keeps_time_time | intros now].
    destruct (now - t >=? show_stats_interval config); [|apply keeps_ret].
    apply keeps_bind; [|auto with keeps].
    apply keeps_bind; [apply keeps_gets | auto with keeps].
  - apply keeps_bind; auto with keeps.
Qed.

Lemma keeps_process_events (events : list sse_event) (t : Z) :
  keeps (process_events events t).
Proof.
  revert t. induction events as [|event rest IH]; intros t;
    [apply keeps_ret|].
  simpl. apply keeps_bind; [apply keeps_process_event | intros [[| |] t']].
  - apply IH.
  - apply keeps_ret.
  - apply keeps_ret.
Qed.

(** What one turn of the [while] loop does to the counter of failed
    attempts and to the count of connection requests. *)
Lemma monitor_turn_spec (l l' : locals) (w w' : world)
    (r : option stop_reason) :
  monitor_turn l w = (r, l', w') ->
  (polls w <= polls w')%nat
  /\ if fst (shutdown_requested env shutdown_handler w) then
       r = Some ShutdownRequested /\ l' = l /\ connects w' = connects w
     else
       connects w' = S (connects w)
       /\ match connect_result env (connects w) with
          | None =>
              connection_attempts l' = connection_attempts l + 1
              /\ r = (if connection_attempts l + 1 >=? max_retries config
                      then Some RetriesExhausted
                      else None)
          | Some _ =>
              connection_attempts l' = 0 /\ r <> Some RetriesExhausted
          end.
Proof.
  unfold monitor_turn, bind at 1.
  pose proof (keeps_shutdown_requested w) as [Hc Hp].
  destruct (shutdown_requested env shutdown_handler w) as [stop w0].
  simpl in Hc, Hp. simpl fst.
  destruct stop.
  { intros E. inversion E; subst. simpl. auto. }
  unfold bind at 1.
  destruct (connect_result env (connects w)) as [body|] eqn:Hr;
    rewrite <- Hc in Hr.
  - rewrite (connect_stream_success env w0 body Hr).
    set (w1 := set_client _ _).
    assert (H1 : connects w1 = S (connects w) /\ (polls w <= polls w1)%nat)
      by (split; [simpl; congruence | exact Hp]).
    clearbody w1. destruct H1 as [Hc1 Hp1].
    unfold bind at 1.
    pose proof (keeps_when (negb (quiet_mode config))
                  (print PrintStreamConnected)
                  (keeps_print PrintStreamConnected) w1) as [Hc2 Hp2].
    destruct (when _ _ w1) as [[] w2]. simpl in Hc2, Hp2.
    destruct (listen_from json_loads None (stream_lines body))
      as [events failed].
    unfold bind at 1.
    pose proof (keeps_process_events events (last_stats_time l) w2)
      as [Hc3 Hp3].
    destruct (process_events events (last_stats_time l) w2) as [[f t] w3].
    simpl in Hc3, Hp3.
    destruct f.
    + unfold bind at 1.
      pose proof (keeps_when (failed || stream_fault body)
                    (update_client (set_connected false))
                    (keeps_update_client (set_connected false)) w3)
        as [Hc4 Hp4].
      destruct (when _ _ w3) as [[] w4]. simpl in Hc4, Hp4.
      intros E. inversion E; subst. simpl.
      repeat split; try congruence; lia.
    + intros E. inversion E; subst. simpl.
      repeat split; try congruence; lia.
    + intros E. inversion E; subst. simpl.
      repeat split; try congruence; lia.
  - rewrite (connect_stream_failure env w0 Hr).
    set (w1 := set_client _ _).
    assert (H1 : connects w1 = S (connects w) /\ (polls w <= polls w1)%nat)
      by (split; [simpl; congruence | exact Hp]).
    clearbody w1. destruct H1 as [Hc1 Hp1].
    destruct (connection_attempts l + 1 >=? max_retries config).
    + intros E. inversion E; subst. simpl. auto.
    + unfold bind at 1.
      pose proof (keeps_when (negb (quiet_mode config))
                    (print (PrintRetrying (connection_attempts l + 1)))
                    (keeps_print _) w1) as [Hc2 Hp2].
      destruct (when _ _ w1) as [[] w2]. simpl in Hc2, Hp2.
      intros E. inversion E; subst. simpl.
      repeat split; try congruence; lia.
Qed.

#[local] Abbreviation run_sse_monitor :=
  (run_sse_monitor json_loads format_event format_raw_data env config
     shutdown_handler).
#[local] Abbreviation below_ceiling := (below_ceiling env config).

Lemma monitor_loop_succ (fuel : nat) (l : locals) (w : world) :
  monitor_loop (S fuel) l w =
    match monitor_turn l w with
    | (Some why, l', w') => (Some why, l', w')
    | (None, l', w') => monitor_loop fuel l' w'
    end.
Proof.
  simpl. unfold bind.
  destruct (monitor_turn l w) as [[[why|] l'] w']; reflexivity.
Qed.

(** The counter of the loop is the length of the run of failures that
    ends at the last request, and the loop goes on only below the
    ceiling: a failure that brings the run to the ceiling is the last
    request of the loop. *)
Lemma monitor_loop_safe (fuel : nat) :
  forall (l l' : locals) (w w' : world) (r : option stop_reason),
    connection_attempts l = Z.of_nat (failed_run env (connects w)) ->
    below_ceiling (connects w) ->
    monitor_loop fuel l w = (r, l', w') ->
    forall k : nat,
      (k < connects w')%nat -> connect_result env k = None ->
      max_retries config <= Z.of_nat (failed_run env (S k)) ->
      connects w' = S k /\ r = Some RetriesExhausted.
Proof.
  induction fuel as [|fuel IH]; intros l l' w w' r Ha Hb E k Hk Hf Hm.
  - inversion E; subst. specialize (Hb k Hk Hf). lia.
  - rewrite monitor_loop_succ in E.
    destruct (monitor_turn l w) as [[r1 l1] w1] eqn:Et.
    apply monitor_turn_spec in Et as [_ Hs].
    destruct (fst (shutdown_requested env shutdown_handler w)).
    { destruct Hs as (-> & -> & Hc). inversion E; subst.
      rewrite Hc in Hk. specialize (Hb k Hk Hf). lia. }
    destruct Hs as [Hc Hs].
    assert (Hold : forall j, (j < S (connects w))%nat -> j <> connects w ->
                     connect_result env j = None ->
                     Z.of_nat (failed_run env (S j)) < max_retries config)
      by (intros j Hj ne; apply Hb; lia).
    destruct (connect_result env (connects w)) as [body|] eqn:Hr.
    + destruct Hs as [Ha1 Hne].
      assert (Hb1 : below_ceiling (connects w1)).
      { rewrite Hc. intros j Hj Hfj.
        destruct (Nat.eq_dec j (connects w)) as [->|ne];
          [congruence | now apply Hold]. }
      destruct r1 as [why|].
      * inversion E; subst. specialize (Hb1 k Hk Hf). lia.
      * apply (IH l1 l' w1 w' r); try assumption.
        rewrite Ha1, Hc. simpl. now rewrite Hr.
    + destruct Hs as [Ha1 ->].
      assert (Hrun : connection_attempts l + 1
                     = Z.of_nat (failed_run env (S (connects w))))
        by (simpl; rewrite Hr; lia).
      rewrite Z.geb_leb in E.
      destruct (Z.leb_spec (max_retries config) (connection_attempts l + 1))
        as [Hge|Hlt].
      * inversion E; subst. rewrite Hc in *.
        destruct (Nat.eq_dec k (connects w)) as [->|ne]; [easy|].
        specialize (Hold k Hk ne Hf). lia.
      * apply (IH l1 l' w1 w' r); try assumption.
        -- rewrite Ha1, Hc. exact Hrun.
        -- rewrite Hc. intros j Hj Hfj.
           destruct (Nat.eq_dec j (connects w)) as [->|ne];
             [lia | now apply Hold].
Qed.

(** When the requests keep failing and no shutdown is asked for, the
    loop stops by itself once the counter reaches the ceiling. *)
Lemma monitor_loop_gives_up (d : nat) :
  forall (fuel : nat) (l : locals) (w : world),
    (1 <= d <= fuel)%nat ->
    0 <= connection_attempts l ->
    connection_attempts l + Z.of_nat d = Z.max 1 (max_retries config) ->
    (forall i, should_shutdown env i = false) ->
    (forall i, (i < d)%nat -> connect_result env (connects w + i) = None) ->
    fst (fst (monitor_loop fuel l w)) = Some RetriesExhausted
    /\ connects (snd (monitor_loop fuel l w)) = (connects w + d)%nat.
Proof.
  induction d as [|d IH]; intros fuel l w Hd Ha Hsum Hs Hf; [lia|].
  destruct fuel as [|fuel]; [lia|].
  rewrite monitor_loop_succ.
  destruct (monitor_turn l w) as [[r1 l1] w1] eqn:Et.
  apply monitor_turn_spec in Et as [_ Ht].
  assert (Hno : fst (shutdown_requested env shutdown_handler w) = false).
  { unfold shutdown_requested. destruct shutdown_handler; [apply Hs|easy]. }
  rewrite Hno in Ht. destruct Ht as [Hc Ht].
  pose proof (Hf 0%nat ltac:(lia)) as H0. rewrite Nat.add_0_r in H0.
  rewrite H0 in Ht. destruct Ht as [Ha1 ->].
  rewrite Z.geb_leb.
  destruct (Z.leb_spec (max_retries config) (connection_attempts l + 1))
    as [Hge|Hlt].
  - simpl. split; [reflexivity|].
    assert (d = 0)%nat by lia. subst d. lia.
  - destruct d as [|d]; [lia|].
    destruct (IH fuel l1 w1) as [Hr Hn]; try lia; try assumption.
    + intros i Hi. rewrite Hc.
      replace (S (connects w) + i)%nat with (connects w + S i)%nat by lia.
      apply Hf. lia.
    + split; [exact Hr | rewrite Hn, Hc; lia].
Qed.

(** C7. The counter of consecutive failed connection attempts is set to
    zero by every successful connection.  A failed attempt that brings
    the run of consecutive failures to [max_retries] is the last
    attempt of the loop, which ends there for exhausted retries.  And
    when the attempts keep failing with no shutdown asked for, the loop
    does end, after exactly [max_retries] attempts (one, when
    [max_retries] is below one). *)
Theorem retries_exhausted_ends_the_loop :
  (forall (l l' : locals) (w w' : world) (r : option stop_reason)
          (body : stream),
     fst (shutdown_requested env shutdown_handler w) = false ->
     connect_result env (connects w) = Some body ->
     monitor_turn l w = (r, l', w') ->
     connection_attempts l' = 0)
  /\ (forall (fuel : nat) (w : world) (k : nat),
        connects w = 0%nat ->
        (k < connects (snd (run_sse_monitor fuel w)))%nat ->
        connect_result env k = None ->
        max_retries config <= Z.of_nat (failed_run env (S k)) ->
        connects (snd (run_sse_monitor fuel w)) = S k
        /\ fst (fst (run_sse_monitor fuel w)) = Some RetriesExhausted)
  /\ (forall (fuel : nat) (w : world),
        (ceiling config <= fuel)%nat ->
        (forall i, should_shutdown env i = false) ->
        (forall i, (i < ceiling config)%nat ->
                   connect_result env (connects w + i) = None) ->
        fst (fst (run_sse_monitor fuel w)) = Some RetriesExhausted
        /\ connects (snd (run_sse_monitor fuel w))
           = (connects w + ceiling config)%nat).
Proof.
  split; [|split].
  - intros l l' w w' r body Hno Hr Et.
    apply monitor_turn_spec in Et as [_ Ht].
    rewrite Hno, Hr in Ht. tauto.
  - intros fuel w k H0 Hk Hf Hm.
    unfold run_sse_monitor, bind, time_time in *.
    destruct (monitor_loop fuel _ (next_tick w)) as [[r l'] w'] eqn:E.
    cbn [fst snd] in *.
    refine (monitor_loop_safe fuel _ l' (next_tick w) w' r _ _ E k Hk Hf Hm).
    + simpl. now rewrite H0.
    + simpl. rewrite H0. intros j Hj. lia.
  - intros fuel w Hfuel Hs Hf.
    unfold run_sse_monitor, bind, time_time.
    apply (monitor_loop_gives_up (ceiling config) fuel _ (next_tick w));
      try assumption; unfold ceiling in *; simpl; lia.
Qed.

(** The calls of [handle_sse_event] that the body of the [for] loop
    makes for an event: one, with the name and the data of the event,
    when the checks before the hand-over pass and the name is not
    empty, and none otherwise. *)
Lemma process_event_handled (event : sse_event) (t : Z) (w : world) :
  handled (snd (process_event event t w)) =
    (handled w ++
     (if reaches_handler env config shutdown_handler w
         && PyStr.truthy (ev_event event)
      then [(ev_event event, event_data event)]
      else []))%list.
Proof.
  assert (Hbreak : forall (p : printed) (w1 : world),
            handled w1 = handled w ->
            handled (snd (bind (when (negb (quiet_mode config)) (print p))
                            (fun _ => ret (Break, t)) w1))
            = (handled w ++ [])%list).
  { intros p w1 H. rewrite app_nil_r.
    unfold bind, when, print, modify, ret.
    now destruct (quiet_mode config). }
  assert (Hgo : forall w1 : world,
            handled w1 = handled w ->
            handled
              (snd (bind (dispatch_event event)
                      (fun _ =>
                         bind (time_time env)
                           (fun current_time =>
                              if current_time - t
                                 >=? show_stats_interval config
                              then bind print_stats
                                     (fun _ => ret (Next, current_time))
                              else ret (Next, t))) w1))
            = (handled w ++
               (if PyStr.truthy (ev_event event)
                then [(ev_event event, event_data event)]
                else []))%list).
  { intros w1 H. unfold bind at 1.
    pose proof (dispatch_event_handled event w1) as Hd.
    destruct (dispatch_event event w1) as [[] w2]. simpl in Hd.
    rewrite <- H, <- Hd.
    unfold bind, time_time, print_stats, gets, print, modify, ret.
    now destruct (clock env (ticks w2) - t >=? show_stats_interval config). }
  assert (Hrest : forall w0 : world,
            handled w0 = handled w -> ticks w0 = ticks w ->
            probes w0 = probes w -> client w0 = client w ->
            handled
              (snd (bind (is_connection_stale env config)
                      (fun stale =>
                         if stale
                         then bind (when (negb (quiet_mode config))
                                      (print PrintStale))
                                (fun _ => ret (Break, t))
                         else
                           bind (needs_health_check env config)
                             (fun due =>
                                bind (if due then perform_health_check env
                                      else ret true)
                                  (fun healthy =>
                                     if negb healthy
                                     then bind
                                            (when (negb (quiet_mode config))
                                               (print PrintHealthCheckFailed))
                                            (fun _ => ret (Break, t))
                                     else
                                       bind (dispatch_event event)
                                         (fun _ =>
                                            bind (time_time env)
                                              (fun current_time =>
                                                 if current_time - t
                                                    >=? show_stats_interval
                                                          config
                                                 then
                                                   bind print_stats
                                                     (fun _ =>
                                                        ret
                                                          (Next, current_time))
                                                 else ret (Next, t))))))
                      w0))
            = (handled w ++
               (if negb (clock env (ticks w) - last_data_time (client w)
                         >? stream_timeout config)
                   && match last_health_check (client w) with
                      | None => probe_result env (probes w)
                      | Some stamp =>
                          if (stamp =? 0)
                             || (clock env (S (ticks w)) - stamp
                                 >? health_check_interval config)
                          then probe_result env (probes w)
                          else true
                      end
                   && PyStr.truthy (ev_event event)
                then [(ev_event event, event_data event)]
                else []))%list).
  { intros w0 Hh Ht Hp Hc.
    unfold bind at 1. rewrite is_connection_stale_eq, Ht, Hc.
    destruct (clock env (ticks w) - last_data_time (client w)
              >? stream_timeout config); simpl.
    { now apply Hbreak. }
    unfold bind at 1. rewrite needs_health_check_eq. simpl.
    rewrite Hc, Ht.
    assert (Hprobe : forall w1 : world,
              handled w1 = handled w -> probes w1 = probes w ->
              handled
                (snd (bind (perform_health_check env)
                        (fun healthy =>
                           if negb healthy
                           then bind
                                  (when (negb (quiet_mode config))
                                     (print PrintHealthCheckFailed))
                                  (fun _ => ret (Break, t))
                           else
                             bind (dispatch_event event)
                               (fun _ =>
                                  bind (time_time env)
                                    (fun current_time =>
                                       if current_time - t
                                          >=? show_stats_interval config
                                       then
                                         bind print_stats
                                           (fun _ =>
                                              ret (Next, current_time))
                                       else ret (Next, t)))) w1))
              = (handled w ++
                 (if probe_result env (probes w)
                     && PyStr.truthy (ev_event event)
                  then [(ev_event event, event_data event)]
                  else []))%list).
    { intros w1 Hh1 Hp1.
      unfold bind at 1, perform_health_check, bind at 1. simpl.
      rewrite Hp1.
      destruct (probe_result env (probes w)); simpl.
      - unfold bind at 1, time_time, bind at 1, update_client, modify, ret.
        simpl. now apply Hgo.
      - now apply Hbreak. }
    destruct (last_health_check (client w)) as [stamp|].
    - destruct (stamp =? 0); simpl.
      + now apply Hprobe.
      + destruct (clock env (S (ticks w)) - stamp
                  >? health_check_interval config); simpl.
        * now apply Hprobe.
        * unfold bind at 1, ret at 1. simpl. now apply Hgo.
    - now apply Hprobe. }
  unfold process_event, reaches_handler, bind at 1, shutdown_requested.
  destruct shutdown_handler; simpl.
  - destruct (should_shutdown env (polls w)); simpl.
    + unfold bind, print, modify, ret. simpl. now rewrite app_nil_r.
    + now apply Hrest.
  - now apply Hrest.
Qed.

(** A turn of the [while] loop whose connection succeeds and whose
    stream yields one event makes the calls of [handle_sse_event] that
    the body of the [for] loop makes for that event. *)
Lemma monitor_turn_handled (l : locals) (w : world) (body : stream)
    (event : sse_event) :
  fst (shutdown_requested env shutdown_handler w) = false ->
  connect_result env (connects w) = Some body ->
  listen_stream json_loads (stream_lines body) = [event] ->
  handled (snd (monitor_turn l w)) =
    (handled w ++
     (if reaches_handler env config shutdown_handler
           (stream_start env config shutdown_handler w)
         && PyStr.truthy (ev_event event)
      then [(ev_event event, event_data event)]
      else []))%list.
Proof.
  intros Hs Hr Hev.
  assert (Hw0 : snd (shutdown_requested env shutdown_handler w)
                = if shutdown_handler then next_poll w else w)
    by (unfold shutdown_requested; now destruct shutdown_handler).
  unfold monitor_turn, bind at 1.
  destruct (shutdown_requested env shutdown_handler w) as [stop w0].
  simpl in Hs, Hw0. subst stop.
  assert (Hc0 : connects w0 = connects w /\ client w0 = client w
                /\ ticks w0 = ticks w /\ handled w0 = handled w)
    by (subst w0; now destruct shutdown_handler).
  destruct Hc0 as (Hc & Hcl & Ht & Hh).
  unfold bind at 1.
  rewrite (connect_stream_success env w0 body) by (now rewrite Hc).
  rewrite Hcl, Ht.
  unfold bind at 1.
  assert (Hstart : snd (when (negb (quiet_mode config))
                          (print PrintStreamConnected)
                          (set_client
                             {| connection_id := connection_id (client w);
                                last_data_time := clock env (ticks w);
                                last_health_check :=
                                  Some (clock env (ticks w));
                                connected := true |}
                             (next_tick (next_connect w0))))
                   = stream_start env config shutdown_handler w).
  { unfold stream_start. rewrite <- Hw0.
    unfold when, print, modify, ret. now destruct (quiet_mode config). }
  destruct (when _ _ _) as [[] w2]. simpl in Hstart. subst w2.
  unfold listen_stream in Hev.
  destruct (listen_from json_loads None (stream_lines body))
    as [events failed].
  simpl in Hev. subst events.
  assert (Hh2 : handled (stream_start env config shutdown_handler w)
                = handled w).
  { unfold stream_start. rewrite <- Hw0.
    destruct (quiet_mode config); simpl; exact Hh. }
  pose proof (process_event_handled event (last_stats_time l)
                (stream_start env config shutdown_handler w)) as Hp.
  rewrite Hh2 in Hp.
  unfold bind at 1. simpl process_events. unfold bind at 1.
  destruct (process_event event (last_stats_time l)
              (stream_start env config shutdown_handler w))
    as [[f t'] w3].
  simpl in Hp. rewrite <- Hp.
  destruct f; simpl; try reflexivity.
  unfold bind, when, update_client, modify, ret.
  now destruct (failed || stream_fault body).
Qed.

(** C10, as amended. For a frame made of an event line, id lines and a
    blank line, with no data line, [listen_stream] yields one event
    without a data field, for which the controller computes the empty
    object as data.  The controller hands the event to
    [handle_sse_event], with that empty object, when no shutdown is
    requested, the connection is not stale, a health check that is due
    succeeds and the name of the event is not empty; in every other
    case it hands nothing over.  This holds of the body of the loop
    over the events, in any world, and of the turn of the controller
    that connects and reads the frame.  So no call of the handler
    receives a missing data value. *)
Theorem event_without_data_gets_empty_object
    (head : string) (ids : list string) (t : Z) (w : world) :
  is_event_line head = true ->
  Forall (fun l => is_id_line l = true) ids ->
  listen_stream json_loads (map Some (head :: ids ++ [EmptyString])) =
    [{| ev_event := trimmed_remainder 7 head;
        ev_data := None;
        ev_id := last_id ids |}]
  /\ event_data {| ev_event := trimmed_remainder 7 head;
                   ev_data := None;
                   ev_id := last_id ids |} = JObj []
  /\ handled (snd (dispatch_event
                     {| ev_event := trimmed_remainder 7 head;
                        ev_data := None;
                        ev_id := last_id ids |} w)) =
     (handled w ++
      (if PyStr.truthy (trimmed_remainder 7 head)
       then [(trimmed_remainder 7 head, JObj [])]
       else []))%list
  /\ handled (snd (process_event
                     {| ev_event := trimmed_remainder 7 head;
                        ev_data := None;
                        ev_id := last_id ids |} t w)) =
     (handled w ++
      (if reaches_handler env config shutdown_handler w
          && PyStr.truthy (trimmed_remainder 7 head)
       then [(trimmed_remainder 7 head, JObj [])]
       else []))%list
  /\ (forall (l : locals) (body : stream),
        fst (shutdown_requested env shutdown_handler w) = false ->
        connect_result env (connects w) = Some body ->
        stream_lines body = map Some (head :: ids ++ [EmptyString]) ->
        handled (snd (monitor_turn l w)) =
          (handled w ++
           (if reaches_handler env config shutdown_handler
                 (stream_start env config shutdown_handler w)
               && PyStr.truthy (trimmed_remainder 7 head)
            then [(trimmed_remainder 7 head, JObj [])]
            else []))%list).
Proof.
  intros Hh Hids.
  assert (Hnone : forall l, is_id_line l = true -> is_data_line l = false).
  { intros l Hl. destruct (is_data_line l) eqn:Hd; [|reflexivity].
    rewrite (data_and_id_exclusive l Hd) in Hl. discriminate. }
  assert (Hdata : last_data json_loads ids = None).
  { unfold last_data.
    assert (Hrev : Forall (fun l => is_id_line l = true) (rev ids))
      by now apply List.Forall_rev.
    induction Hrev as [|l ls Hl _ IH]; [reflexivity|].
    simpl. now rewrite (Hnone l Hl). }
  assert (Hframe :
            listen_stream json_loads (map Some (head :: ids ++ [EmptyString]))
            = [{| ev_event := trimmed_remainder 7 head;
                  ev_data := None;
                  ev_id := last_id ids |}]).
  { rewrite frame_yields; [now rewrite Hdata | exact Hh | |].
    - eapply Forall_impl; [exact Hids | simpl; intros l ->].
      apply orb_true_r.
    - eapply Forall_impl; [exact Hids | simpl; intros l Hl Hd].
      rewrite (Hnone l Hl) in Hd. discriminate. }
  split; [exact Hframe | split; [reflexivity | split; [|split]]].
  - apply dispatch_event_handled.
  - apply process_event_handled.
  - intros l body Hs Hr Hlines.
    rewrite <- Hlines in Hframe.
    apply (monitor_turn_handled l w body _ Hs Hr Hframe).
Qed.

End Controller.

(** ** Sample runs of the controller *)

Lemma retries_exhausted_ends_the_loop_witness :
  fst (fst (run_sse_monitor JsonRef.json_loads format_name format_name
              env_down config_default true 10 (world_init 999)))
    = Some RetriesExhausted
  /\ connects (snd (run_sse_monitor JsonRef.json_loads format_name format_name
                      env_down config_default true 10 (world_init 999)))
     = 10%nat.
Proof.
  apply (proj2 (proj2 (retries_exhausted_ends_the_loop JsonRef.json_loads
                         format_name format_name env_down config_default
                         true))
           10%nat (world_init 999)).
  - vm_compute. lia.
  - intros i. reflexivity.
  - intros i _. reflexivity.
Defined.

Lemma event_without_data_gets_empty_object_witness :
  listen_stream JsonRef.json_loads
    (map Some ("event: ready" :: ["id: 7"] ++ [EmptyString]))
    = [{| ev_event := "ready"; ev_data := None; ev_id := Some "7" |}]
  /\ event_data {| ev_event := "ready"; ev_data := None; ev_id := Some "7" |}
     = JObj []
  /\ handled (snd (process_event format_name format_name
                     (env_up ["event: ready"; "id: 7"; EmptyString])
                     config_default true
                     {| ev_event := "ready"; ev_data := None;
                        ev_id := Some "7" |}
                     1000 world_probe_due))
     = [("ready", JObj [])]
  /\ handled (snd (monitor_turn JsonRef.json_loads format_name format_name
                     (env_up ["event: ready"; "id: 7"; EmptyString])
                     config_default true
                     {| connection_attempts := 0; last_stats_time := 1000 |}
                     world_probe_due))
     = [("ready", JObj [])].
Proof.
  destruct (event_without_data_gets_empty_object JsonRef.json_loads
              format_name format_name
              (env_up ["event: ready"; "id: 7"; EmptyString])
              config_default true "event: ready" ["id: 7"] 1000
              world_probe_due)
    as (Hframe & Hdata & _ & Hbody & Hturn).
  - reflexivity.
  - repeat constructor.
  - split; [exact Hframe | split; [exact Hdata | split; [exact Hbody|]]].
    apply (Hturn {| connection_attempts := 0; last_stats_time := 1000 |}
             {| stream_lines :=
                  map Some ["event: ready"; "id: 7"; EmptyString];
                stream_fault := false |}); reflexivity.
Defined.

(** The claim C10 as stated fails.  The frame of the event line
    ["event: "] and a blank line yields an event with an empty name,
    and the turn of the loop that reads it hands nothing to
    [handle_sse_event]; with the name ["ready"] the same turn hands
    over the event with the empty object.  And when the event is read
    500 seconds after the connection, past [stream_timeout], the turn
    hands nothing over although the name is ["ready"]. *)
Lemma nameless_event_is_not_dispatched :
  listen_stream JsonRef.json_loads (map Some ["event: "; EmptyString])
    = [new_event EmptyString]
  /\ handled (snd (monitor_turn JsonRef.json_loads format_name format_name
                     (env_up ["event: "; EmptyString]) config_default false
                     {| connection_attempts := 0; last_stats_time := 1000 |}
                     (world_init 999)))
     = []
  /\ handled (snd (monitor_turn JsonRef.json_loads format_name format_name
                     (env_up ["event: ready"; EmptyString]) config_default
                     false
                     {| connection_attempts := 0; last_stats_time := 1000 |}
                     (world_init 999)))
     = [("ready", JObj [])]
  /\ handled (snd (monitor_turn JsonRef.json_loads format_name format_name
                     (env_slow ["event: ready"; EmptyString]) config_default
                     false
                     {| connection_attempts := 0; last_stats_time := 1000 |}
                     (world_init 999)))
     = [].
Proof. repeat split. Qed.

(** ** Whole streams *)

Section Stream_properties.

Variable json_loads : string -> result json.

#[local] Abbreviation parse_sse_line := (parse_sse_line json_loads).
#[local] Abbreviation listen_step := (listen_step json_loads).
#[local] Abbreviation listen_from := (listen_from json_loads).
#[local] Abbreviation listen_stream := (listen_stream json_loads).
#[local] Abbreviation current_after := (current_after json_loads).
#[local] Abbreviation decodes := (decodes json_loads).
#[local] Abbreviation absorb := (absorb json_loads).
#[local] Abbreviation well_formed := (well_formed json_loads).
#[local] Abbreviation frame_event := (frame_event json_loads).

(** X5. A line gives no token exactly when it starts with none of
    [event: ], [data: ] and [id: ], the space included, or when it is a
    data line on whose payload the decoder ends with an exception other
    than a decode error. *)
Theorem no_token_iff_no_field (line : string) :
  parse_sse_line line = Ok None <->
  is_event_line line = false /\ is_id_line line = false
  /\ (is_data_line line = false
      \/ json_loads (trimmed_remainder 6 line) = Raise OtherException).
Proof.
  split.
  - intros H. repeat split.
    + destruct (is_event_line line) eqn:He; [|reflexivity].
      rewrite parse_event_line in H by exact He. discriminate.
    + destruct (is_id_line line) eqn:Hi; [|reflexivity].
      rewrite parse_id_line in H by exact Hi. discriminate.
    + destruct (is_data_line line) eqn:Hd; [right | now left].
      rewrite parse_data_line in H by exact Hd.
      destruct (json_loads _) as [v|[]]; try discriminate. reflexivity.
  - intros (He & Hi & Hd).
    destruct (is_data_line line) eqn:Hdl.
    + destruct Hd as [?|Hd]; [discriminate|].
      rewrite parse_data_line by exact Hdl. now rewrite Hd.
    + unfold parse_sse_line, parse_fields.
      unfold is_event_line in He. unfold is_id_line in Hi.
      unfold is_data_line in Hdl. rewrite He, Hdl, Hi.
      now destruct (negb (PyStr.truthy line) || PyStr.startswith ":" line).
Qed.

Lemma listen_step_returns (current : option sse_event)
    (line : option string) :
  exists r, listen_step current line = Ok r.
Proof.
  destruct line as [line|]; [|now eexists].
  unfold listen_step.
  destruct (parse_sse_line_returns json_loads line) as [parsed ->].
  destruct parsed as [[name|d|i]|], current; eauto.
Qed.

(** No line makes the loop of [listen_stream] enter its [except]
    clause. *)
Lemma listen_from_never_fails (lines : list (option string)) :
  forall current, snd (listen_from current lines) = false.
Proof.
  induction lines as [|line rest IH]; intros current; [reflexivity|].
  rewrite listen_from_cons.
  destruct (listen_step_returns current line) as [[current' out] ->].
  specialize (IH current'). now destruct (listen_from current' rest).
Qed.

Lemma current_after_cons (current : option sse_event) (line : option string)
    (rest : list (option string)) :
  current_after current (line :: rest) =
    match listen_step current line with
    | Raise _ => current
    | Ok (current', _) => current_after current' rest
    end.
Proof. reflexivity. Qed.

(** The events of a stream read in two parts. *)
Lemma listen_from_app (l1 l2 : list (option string)) :
  forall current,
    fst (listen_from current (l1 ++ l2)) =
      (fst (listen_from current l1)
       ++ fst (listen_from (current_after current l1) l2))%list.
Proof.
  induction l1 as [|line rest IH]; intros current; [reflexivity|].
  rewrite <- app_comm_cons, !listen_from_cons, current_after_cons.
  destruct (listen_step_returns current line) as [[current' out] ->].
  specialize (IH current').
  destruct (listen_from current' (rest ++ l2)),
    (listen_from current' rest), out; simpl in *; now rewrite IH.
Qed.

Lemma current_after_app (l1 l2 : list (option string)) :
  forall current,
    current_after current (l1 ++ l2) =
      current_after (current_after current l1) l2.
Proof.
  induction l1 as [|line rest IH]; intros current; [reflexivity|].
  rewrite <- app_comm_cons, !current_after_cons.
  destruct (listen_step_returns current line) as [[current' out] ->].
  apply IH.
Qed.

Lemma current_after_fields (ev : sse_event) (body : list string) :
  Forall (fun l => is_data_line l || is_id_line l = true) body ->
  Forall (fun l => is_data_line l = true -> decodes l) body ->
  current_after (Some ev) (map Some body) = Some (fold_left absorb body ev).
Proof.
  revert ev. induction body as [|l body IH]; intros ev Hf Hd; [reflexivity|].
  inversion Hf; inversion Hd; subst.
  rewrite map_cons, current_after_cons.
  rewrite listen_step_field by assumption. now apply IH.
Qed.

(** After a well-formed frame no event is in progress. *)
Lemma current_after_frame (current : option sse_event) (f : frame) :
  well_formed f -> current_after current (frame_lines f) = None.
Proof.
  intros (Hh & Hf & Hd). unfold frame_lines.
  rewrite map_cons, map_app, current_after_cons.
  rewrite listen_step_event by exact Hh.
  rewrite current_after_app, current_after_fields by assumption.
  reflexivity.
Qed.

Lemma listen_from_frame (current : option sse_event) (f : frame) :
  well_formed f -> fst (listen_from current (frame_lines f)) = [frame_event f].
Proof.
  intros (Hh & Hf & Hd). unfold frame_lines.
  rewrite map_cons, map_app, listen_from_cons.
  rewrite listen_step_event by exact Hh.
  rewrite listen_from_fields by assumption.
  rewrite absorb_frame. reflexivity.
Qed.

(** X1. A stream made of well-formed frames, one after the other, on
    each of whose data payloads [json.loads] returns a value or raises
    [JSONDecodeError], yields one event for each frame, in the order of
    the frames. *)
Theorem frames_yield_their_events (frames : list frame) :
  Forall well_formed frames ->
  listen_stream (concat (map frame_lines frames)) = map frame_event frames.
Proof.
  unfold listen_stream. generalize (@None sse_event) as current.
  induction frames as [|f frames IH]; intros current Hw; [reflexivity|].
  inversion Hw; subst.
  change (concat (map frame_lines (f :: frames)))
    with (frame_lines f ++ concat (map frame_lines frames))%list.
  rewrite listen_from_app, listen_from_frame, current_after_frame
    by assumption.
  rewrite map_cons. simpl app. f_equal. now apply IH.
Qed.

(** X2. When the stream stops after an event line and data and id
    lines, with no blank line, and [json.loads] returns a value or
    raises [JSONDecodeError] on the payload of each of these data
    lines, the event in progress is lost: the stream yields what it
    yielded before that event line. *)
Theorem unterminated_frame_is_lost
    (lines : list (option string)) (head : string) (body : list string) :
  is_event_line head = true ->
  Forall (fun l => is_data_line l || is_id_line l = true) body ->
  Forall (fun l => is_data_line l = true -> decodes l) body ->
  listen_stream (lines ++ map Some (head :: body)) = listen_stream lines.
Proof.
  intros Hh Hf Hd. unfold listen_stream.
  rewrite listen_from_app, map_cons, listen_from_cons.
  rewrite listen_step_event by exact Hh.
  rewrite <- (app_nil_r (map Some body)).
  rewrite listen_from_fields by assumption.
  simpl. apply app_nil_r.
Qed.

Lemma not_event_line_no_event_token (line name : string) :
  is_event_line line = false ->
  parse_sse_line line <> Ok (Some (EventName name)).
Proof.
  unfold is_event_line, parse_sse_line, parse_fields. intros ->.
  destruct (negb (PyStr.truthy line) || PyStr.startswith ":" line);
    [discriminate|].
  destruct (PyStr.startswith "data: " line).
  - destruct (json_loads _) as [v|[]]; discriminate.
  - destruct (PyStr.startswith "id: " line); discriminate.
Qed.

(** With no event in progress, a line other than an event line changes
    nothing and yields nothing. *)
Lemma listen_step_idle (line : option string) :
  match line with
  | Some l => is_event_line l = false
  | None => True
  end ->
  listen_step None line = Ok (None, None).
Proof.
  destruct line as [line|]; [|reflexivity]. intros H.
  pose proof (not_event_line_no_event_token line) as Hne.
  unfold listen_step.
  destruct (parse_sse_line_returns json_loads line) as [parsed Hp].
  rewrite Hp in *.
  destruct parsed as [[name|d|i]|]; try reflexivity.
  now elim (Hne name H).
Qed.

(** X3. Whatever comes before the first event line of a stream is
    ignored: data and id lines with no event to attach to, comments,
    blank lines and unknown fields leave the events of the stream as
    they are. *)
Theorem lines_before_first_event_ignored
    (junk : list string) (lines : list (option string)) :
  Forall (fun l => is_event_line l = false) junk ->
  listen_stream (map Some junk ++ lines) = listen_stream lines.
Proof.
  intros H. unfold listen_stream.
  induction H as [|l junk Hl _ IH]; [reflexivity|].
  rewrite map_cons, <- app_comm_cons, listen_from_cons.
  rewrite (listen_step_idle (Some l)) by exact Hl.
  rewrite <- IH. now destruct (listen_from None (map Some junk ++ lines)).
Qed.

End Stream_properties.

Lemma frames_yield_their_events_witness :
  listen_stream JsonRef.json_loads
    (concat (map frame_lines
               [{| frame_head := "event: trade";
                   frame_body := ["id: 1"; trade_data_line] |};
                {| frame_head := "event: ping"; frame_body := [] |}]))
  = [{| ev_event := "trade";
        ev_data :=
          Some (JObj [("isBuy", JBool true); ("solAmount", JStr "1.5")]);
        ev_id := Some "1" |};
     {| ev_event := "ping"; ev_data := None; ev_id := None |}].
Proof.
  apply (frames_yield_their_events JsonRef.json_loads
           [{| frame_head := "event: trade";
               frame_body := ["id: 1"; trade_data_line] |};
            {| frame_head := "event: ping"; frame_body := [] |}]).
  repeat constructor; vm_compute; discriminate.
Defined.

Lemma unterminated_frame_is_lost_witness :
  listen_stream JsonRef.json_loads
    (map Some ["event: ping"; EmptyString]
     ++ map Some ("event: trade" :: [trade_data_line]))
  = listen_stream JsonRef.json_loads (map Some ["event: ping"; EmptyString]).
Proof.
  apply (unterminated_frame_is_lost JsonRef.json_loads
           (map Some ["event: ping"; EmptyString]) "event: trade"
           [trade_data_line]).
  - reflexivity.
  - repeat constructor.
  - repeat constructor. vm_compute. discriminate.
Defined.

Lemma lines_before_first_event_ignored_witness :
  listen_stream JsonRef.json_loads
    (map Some ["data: 1"; "id: 3"; EmptyString; ": hello"]
     ++ map Some ["event: ping"; EmptyString])
  = listen_stream JsonRef.json_loads (map Some ["event: ping"; EmptyString]).
Proof.
  apply (lines_before_first_event_ignored JsonRef.json_loads
           ["data: 1"; "id: 3"; EmptyString; ": hello"]
           (map Some ["event: ping"; EmptyString])).
  repeat constructor.
Defined.

Section Stream_bounds.

Variable json_loads : string -> result json.

#[local] Abbreviation parse_sse_line := (parse_sse_line json_loads).
#[local] Abbreviation listen_step := (listen_step json_loads).
#[local] Abbreviation listen_from := (listen_from json_loads).
#[local] Abbreviation listen_stream := (listen_stream json_loads).

(** What one line can do: an event line starts an event and yields
    nothing; any other line hands out the event in progress, or keeps
    its name, or changes nothing. *)
Lemma listen_step_cases (current current' out : option sse_event)
    (line : option string) :
  listen_step current line = Ok (current', out) ->
  (exists l, line = Some l /\ is_event_line l = true
             /\ current' = Some (new_event (trimmed_remainder 7 l))
             /\ out = None)
  \/ (event_lines [line] = []
      /\ ((current' = None /\ out = current)
          \/ (out = None
              /\ exists c c', current = Some c /\ current' = Some c'
                              /\ ev_event c' = ev_event c))).
Proof.
  destruct line as [l|].
  2:{ simpl. intros E. inversion E; subst. right. split; [reflexivity|].
      destruct current' as [c|]; [right | now left].
      split; [reflexivity | now exists c, c]. }
  destruct (is_event_line l) eqn:He.
  - rewrite listen_step_event by exact He.
    intros E. inversion E; subst. left. now exists l.
  - intros E. right. split; [simpl; now rewrite He|].
    pose proof (not_event_line_no_event_token json_loads l) as Hne.
    unfold listen_step in E.
    destruct (parse_sse_line_returns json_loads l) as [parsed Hp].
    rewrite Hp in *.
    destruct parsed as [[name|d|i]|].
    + now elim (Hne name He).
    + destruct current as [c|]; inversion E; subst; [right | now left].
      split; [reflexivity | now exists c, (with_data d c)].
    + destruct current as [c|]; inversion E; subst; [right | now left].
      split; [reflexivity | now exists c, (with_id i c)].
    + destruct current as [c|]; inversion E; subst; now left.
Qed.

Lemma listen_from_bound (lines : list (option string)) :
  forall current,
    (length (fst (listen_from current lines))
     <= match current with Some _ => 1 | None => 0 end
        + length (event_lines lines))%nat
    /\ Forall (fun ev =>
                 (exists c, current = Some c /\ ev_event ev = ev_event c)
                 \/ (exists l, In l (event_lines lines)
                               /\ ev_event ev = trimmed_remainder 7 l))
         (fst (listen_from current lines)).
Proof.
  induction lines as [|line rest IH]; intros current.
  { simpl. split; [lia | constructor]. }
  rewrite listen_from_cons.
  destruct (listen_step_returns json_loads current line)
    as [[current' out] E].
  rewrite E. destruct (IH current') as [Hlen Hall].
  assert (Hel : event_lines (line :: rest)
                = (event_lines [line] ++ event_lines rest)%list)
    by (unfold event_lines; simpl; now rewrite app_nil_r).
  rewrite Hel, length_app.
  apply listen_step_cases in E
    as [(l & -> & He & -> & ->)
       |(Hnil & [[-> ->] | (-> & c & c' & -> & -> & Hname)])].
  - destruct (listen_from _ rest) as [events failed]. simpl in *.
    rewrite He. simpl. split; [destruct current; lia|].
    eapply Forall_impl; [exact Hall|].
    intros ev [(c & Hc & Hn) | (l' & Hin & Hn)]; right.
    + inversion Hc; subst. exists l. split; [now left | exact Hn].
    + exists l'. split; [now right | exact Hn].
  - rewrite Hnil. destruct (listen_from None rest) as [events failed].
    simpl in *.
    assert (Hrest : Forall
                      (fun ev =>
                         (exists c, current = Some c
                                    /\ ev_event ev = ev_event c)
                         \/ (exists l, In l (event_lines rest)
                                       /\ ev_event ev = trimmed_remainder 7 l))
                      events).
    { eapply Forall_impl; [exact Hall|].
      intros ev [(c & Hc & _) | H]; [discriminate | now right]. }
    destruct current as [c|]; simpl; split; try lia; try exact Hrest.
    constructor; [left; now exists c | exact Hrest].
  - rewrite Hnil. destruct (listen_from (Some c') rest) as [events failed].
    simpl in *. split; [lia|].
    eapply Forall_impl; [exact Hall|].
    intros ev [(c0 & Hc & Hn) | H]; [left | now right].
    inversion Hc; subst. exists c. split; [reflexivity | congruence].
Qed.

(** X4. For every stream and every decoder, [listen_stream] yields at
    most as many events as the stream has event lines, and the name of
    each event yielded is the trimmed remainder of one of these event
    lines. *)
Theorem events_come_from_event_lines (lines : list (option string)) :
  (length (listen_stream lines) <= length (event_lines lines))%nat
  /\ Forall (fun ev =>
               exists l, In l (event_lines lines)
                         /\ ev_event ev = trimmed_remainder 7 l)
       (listen_stream lines).
Proof.
  destruct (listen_from_bound lines None) as [Hlen Hall].
  split; [exact Hlen|].
  eapply Forall_impl; [exact Hall|].
  intros ev [(c & Hc & _) | H]; [discriminate | exact H].
Qed.

End Stream_bounds.

(** ** The effect of handling one event *)

Section Handler.

Variable format_event : string -> json -> string.
Variable format_raw_data : string -> json -> string.
Variable env : environment.
Variable config : PumpMonitorConfig.

#[local] Abbreviation handle_sse_event :=
  (handle_sse_event format_event format_raw_data env config).
#[local] Abbreviation printed_by :=
  (printed_by format_event format_raw_data config).

(** The world after [handle_sse_event], field by field. *)
Lemma handle_sse_event_effect (event_name : string) (data : json)
    (w : world) :
  snd (handle_sse_event event_name data w) =
    {| client :=
         {| connection_id :=
              if String.eqb event_name "connected"
              then announced_id data (connection_id (client w))
              else connection_id (client w);
            last_data_time := clock env (ticks w);
            last_health_check := last_health_check (client w);
            connected := connected (client w) |};
       stats :=
         if is_counted event_name
         then add_event event_name (stats w)
         else stats w;
       console := (console w ++ printed_by event_name data)%list;
       file := (file w ++ saved_by config event_name data)%list;
       handled := (handled w ++ [(event_name, data)])%list;
       ticks := S (ticks w);
       polls := polls w;
       connects := connects w;
       probes := probes w |}.
Proof.
  unfold handle_sse_event, printed_by, saved_by, is_counted, bind, modify,
    update_data_time, time_time, update_client, modify, ret, when,
    handle_connected, print, save_event, announced_id.
  unfold add_file, add_console, set_stats, set_client, set_last_data_time,
    set_connection_id, next_tick, add_handled.
  destruct (String.eqb event_name "connected").
  - destruct data; simpl; destruct (quiet_mode config); simpl;
      rewrite ?app_nil_r; reflexivity.
  - destruct (String.eqb event_name "ping").
    + simpl. destruct (quiet_mode config); simpl;
        rewrite ?app_nil_r; reflexivity.
    + simpl.
      destruct (show_raw_data config), (show_detailed_logs config),
        (quiet_mode config), (save_to_file config), (json_truthy data);
        simpl; rewrite <- ?app_assoc; simpl; rewrite ?app_nil_r;
        reflexivity.
Qed.

(** X6. Every event handed to [handle_sse_event], whatever its name
    and its data, sets [last_data_time] to the time of the call; the
    staleness check that follows compares the next clock reading with
    that time. *)
Theorem handled_event_refreshes_data_time (event_name : string)
    (data : json) (w : world) :
  last_data_time (client (snd (handle_sse_event event_name data w)))
    = clock env (ticks w)
  /\ fst (is_connection_stale env config
            (snd (handle_sse_event event_name data w)))
     = (clock env (S (ticks w)) - clock env (ticks w)
        >? stream_timeout config).
Proof.
  rewrite is_connection_stale_eq, handle_sse_event_effect. now split.
Qed.

(** X7. [handle_sse_event] adds one to [total_events] and to the count
    of the event name for every event other than ["connected"] and
    ["ping"], and leaves the statistics alone for these two; it never
    changes [connections]. *)
Theorem handled_event_counted_once (event_name : string) (data : json)
    (w : world) :
  total_events (stats (snd (handle_sse_event event_name data w)))
    = total_events (stats w) + (if is_counted event_name then 1 else 0)
  /\ count_of event_name (stats (snd (handle_sse_event event_name data w)))
     = count_of event_name (stats w)
       + (if is_counted event_name then 1 else 0)
  /\ (forall other : string,
        other <> event_name ->
        count_of other (stats (snd (handle_sse_event event_name data w)))
          = count_of other (stats w))
  /\ connections (stats (snd (handle_sse_event event_name data w)))
     = connections (stats w).
Proof.
  rewrite handle_sse_event_effect. simpl.
  destruct (is_counted event_name); simpl.
  - unfold count_of. simpl. rewrite lookup_insert_eq. simpl.
    repeat split. intros other ne. now rewrite lookup_insert_ne by congruence.
  - repeat split; lia.
Qed.


(** The literals that [float] turns into zero, on samples: zeros in any
    notation and values below half the smallest double are zero; the
    smallest double, [NaN] and the infinities are not. *)
Lemma float_zero_samples :
  map PyFloat.is_zero
    ["0.0"; "-0.0"; "0e5"; "0.000E+7"; "1e-400"; "2e-324";
     "2.4703282292062327e-324"]
  = [true; true; true; true; true; true; true]
  /\ map PyFloat.is_zero
       ["5e-324"; "3e-324"; "2.4703282292062328e-324"; "1.5"; "1e999";
        "NaN"; "Infinity"; "-Infinity"]
     = [false; false; false; false; false; false; false; false].
Proof. split; vm_compute; reflexivity. Qed.

(** X9. In quiet mode [handle_sse_event] prints nothing, for any
    event. *)
Theorem quiet_handler_prints_nothing (event_name : string) (data : json)
    (w : world) :
  quiet_mode config = true ->
  console (snd (handle_sse_event event_name data w)) = console w.
Proof.
  intros Hq. rewrite handle_sse_event_effect. simpl.
  unfold printed_by. rewrite Hq. apply app_nil_r.
Qed.

(** X10. A ["connected"] event whose data is an object sets the
    connection id to its [connection_id] entry, and to [None] when the
    entry is missing, whatever id was stored.  When the data is not an
    object the id is kept and nothing is printed.  No other event
    changes the id. *)
Theorem connected_event_sets_connection_id (w : world) :
  (forall members : list (string * json),
     connection_id
       (client (snd (handle_sse_event "connected" (JObj members) w)))
     = default JNull (PyDict.get "connection_id" members))
  /\ (forall data : json,
        match data with JObj _ => False | _ => True end ->
        connection_id (client (snd (handle_sse_event "connected" data w)))
          = connection_id (client w)
        /\ console (snd (handle_sse_event "connected" data w)) = console w)
  /\ (forall (event_name : string) (data : json),
        String.eqb event_name "connected" = false ->
        connection_id (client (snd (handle_sse_event event_name data w)))
          = connection_id (client w)).
Proof.
  split; [|split].
  - intros members. now rewrite handle_sse_event_effect.
  - intros data Hd. rewrite handle_sse_event_effect. simpl. split.
    + destruct data; try contradiction; reflexivity.
    + unfold printed_by.
      destruct (quiet_mode config); [apply app_nil_r|].
      destruct data; try contradiction; apply app_nil_r.
  - intros event_name data Hn.
    rewrite handle_sse_event_effect. simpl. now rewrite Hn.
Qed.

End Handler.

Lemma quiet_handler_prints_nothing_witness :
  console (snd (handle_sse_event format_name format_name env_down
                  config_quiet "trade" (JObj [("isBuy", JBool true)])
                  (world_init 999)))
  = console (world_init 999).
Proof.
  apply (quiet_handler_prints_nothing format_name format_name env_down
           config_quiet "trade" (JObj [("isBuy", JBool true)])
           (world_init 999)).
  reflexivity.
Defined.

Lemma connected_event_sets_connection_id_witness :
  connection_id
    (client (snd (handle_sse_event format_name format_name env_down
                    config_default "connected" (JArr [JInt 1])
                    (world_init 999))))
  = connection_id (client (world_init 999))
  /\ console (snd (handle_sse_event format_name format_name env_down
                     config_default "connected" (JArr [JInt 1])
                     (world_init 999)))
     = console (world_init 999).
Proof.
  apply (proj1 (proj2 (connected_event_sets_connection_id format_name
                         format_name env_down config_default
                         (world_init 999)))
           (JArr [JInt 1])).
  exact I.
Defined.

(** ** What holds across a whole run *)

Section Run_rule.

Variable json_loads : string -> result json.
Variable format_event : string -> json -> string.
Variable format_raw_data : string -> json -> string.
Variable env : environment.
Variable config : PumpMonitorConfig.
Variable shutdown_handler : bool.

#[local] Abbreviation handle_sse_event :=
  (handle_sse_event format_event format_raw_data env config).
#[local] Abbreviation process_event :=
  (process_event format_event format_raw_data env config shutdown_handler).
#[local] Abbreviation process_events :=
  (process_events format_event format_raw_data env config shutdown_handler).
#[local] Abbreviation monitor_turn :=
  (monitor_turn json_loads format_event format_raw_data env config
     shutdown_handler).
#[local] Abbreviation monitor_loop :=
  (monitor_loop json_loads format_event format_raw_data env config
     shutdown_handler).
#[local] Abbreviation run_sse_monitor :=
  (run_sse_monitor json_loads format_event format_raw_data env config
     shutdown_handler).

(** A relation between worlds that is reflexive and transitive, that
    the answers of the environment, the changes of the connection state
    and the prints respect, and that [handle_sse_event] respects. *)
Variable R : world -> world -> Prop.
Hypothesis R_refl : forall w, R w w.
Hypothesis R_trans : forall a b c, R a b -> R b c -> R a c.
Hypothesis R_tick : forall w, R w (next_tick w).
Hypothesis R_poll : forall w, R w (next_poll w).
Hypothesis R_probe : forall w, R w (next_probe w).
Hypothesis R_connect : forall w, R w (next_connect w).
Hypothesis R_client : forall c w, R w (set_client c w).
Hypothesis R_console : forall p w, R w (add_console p w).
Hypothesis R_handle :
  forall event_name data, follows R (handle_sse_event event_name data).

Lemma follows_ret {A : Type} (a : A) : follows R (ret a).
Proof. intros w. apply R_refl. Qed.

Lemma follows_bind {A B : Type} (m : M A) (k : A -> M B) :
  follows R m -> (forall a, follows R (k a)) -> follows R (bind m k).
Proof.
  intros Hm Hk w. unfold bind.
  specialize (Hm w). destruct (m w) as [a w1]. simpl in Hm.
  eapply R_trans; [exact Hm | apply Hk].
Qed.

Lemma follows_when (b : bool) (m : M unit) :
  follows R m -> follows R (when b m).
Proof. intros H. destruct b; [exact H | apply follows_ret]. Qed.

Lemma follows_print (p : printed) : follows R (print p).
Proof. intros w. apply R_console. Qed.

Lemma follows_update_client (f : SSEClient -> SSEClient) :
  follows R (update_client f).
Proof. intros w. apply R_client. Qed.

Lemma follows_time_time : follows R (time_time env).
Proof. intros w. apply R_tick. Qed.

Lemma follows_shutdown_requested :
  follows R (shutdown_requested env shutdown_handler).
Proof.
  unfold shutdown_requested. destruct shutdown_handler; [|apply follows_ret].
  intros w. apply R_poll.
Qed.

Lemma follows_is_connection_stale :
  follows R (is_connection_stale env config).
Proof.
  apply follows_bind; [apply follows_time_time | intros now].
  apply follows_bind; [intros w; apply R_refl | intros t; apply follows_ret].
Qed.

Lemma follows_needs_health_check : follows R (needs_health_check env config).
Proof.
  apply follows_bind; [intros w; apply R_refl|].
  intros [t|]; [|apply follows_ret].
  destruct (t =? 0); [apply follows_ret|].
  apply follows_bind; [apply follows_time_time | intros now].
  apply follows_ret.
Qed.

Lemma follows_perform_health_check : follows R (perform_health_check env).
Proof.
  apply follows_bind; [intros w; apply R_probe|].
  intros [|]; [|apply follows_ret].
  apply follows_bind; [apply follows_time_time | intros now].
  apply follows_bind; [apply follows_update_client | intros _].
  apply follows_ret.
Qed.

Lemma follows_connect_stream : follows R (connect_stream env).
Proof.
  apply follows_bind; [intros w; apply R_connect|].
  intros [body|].
  - apply follows_bind; [apply follows_update_client | intros _].
    apply follows_bind; [apply follows_time_time | intros now].
    apply follows_bind; [apply follows_update_client | intros _].
    apply follows_bind; [apply follows_update_client | intros _].
    apply follows_ret.
  - apply follows_bind; [apply follows_update_client | intros _].
    apply follows_ret.
Qed.

Lemma follows_process_event (event : sse_event) (t : Z) :
  follows R (process_event event t).
Proof.
  apply follows_bind; [apply follows_shutdown_requested | intros [|]].
  { apply follows_bind; [apply follows_print | intros _; apply follows_ret]. }
  apply follows_bind; [apply follows_is_connection_stale | intros [|]].
  { apply follows_bind; [apply follows_when, follows_print|].
    intros _. apply follows_ret. }
  apply follows_bind; [apply follows_needs_health_check | intros due].
  apply follows_bind.
  { destruct due; [apply follows_perform_health_check | apply follows_ret]. }
  intros [|]; simpl.
  - apply follows_bind; [apply follows_when, R_handle | intros _].
    apply follows_bind; [apply follows_time_time | intros now].
    destruct (now - t >=? show_stats_interval config); [|apply follows_ret].
    apply follows_bind; [|intros _; apply follows_ret].
    apply follows_bind; [intros w; apply R_refl | intros s].
    apply follows_print.
  - apply follows_bind; [apply follows_when, follows_print|].
    intros _. apply follows_ret.
Qed.

Lemma follows_process_events (events : list sse_event) (t : Z) :
  follows R (process_events events t).
Proof.
  revert t. induction events as [|event rest IH]; intros t;
    [apply follows_ret|].
  simpl. apply follows_bind; [apply follows_process_event|].
  intros [[| |] t']; [apply IH | apply follows_ret | apply follows_ret].
Qed.

Lemma follows_monitor_turn (l : locals) : follows R (monitor_turn l).
Proof.
  apply follows_bind; [apply follows_shutdown_requested | intros [|]].
  { apply follows_bind; [apply follows_print | intros _; apply follows_ret]. }
  apply follows_bind; [apply follows_connect_stream | intros [body|]].
  - apply follows_bind; [apply follows_when, follows_print | intros _].
    destruct (listen_from json_loads None (stream_lines body))
      as [events failed].
    apply follows_bind; [apply follows_process_events|].
    intros [[| |] t]; cbv zeta; try apply follows_ret.
    apply follows_bind; [apply follows_when, follows_update_client|].
    intros _. apply follows_ret.
  - cbv zeta.
    destruct (connection_attempts l + 1 >=? max_retries config).
    + apply follows_bind; [apply follows_print|].
      intros _. apply follows_ret.
    + apply follows_bind; [apply follows_when, follows_print|].
      intros _. apply follows_ret.
Qed.

Lemma follows_monitor_loop (fuel : nat) :
  forall l, follows R (monitor_loop fuel l).
Proof.
  induction fuel as [|fuel IH]; intros l; [apply follows_ret|].
  simpl. apply follows_bind; [apply follows_monitor_turn|].
  intros [[why|] l']; [apply follows_ret | apply IH].
Qed.

(** Such a relation holds between the world before a run of
    [_run_sse_monitor] and the world after it. *)
Lemma follows_run_sse_monitor (fuel : nat) :
  follows R (run_sse_monitor fuel).
Proof.
  apply follows_bind; [apply follows_time_time | intros now].
  apply follows_monitor_loop.
Qed.

End Run_rule.

Section Run_properties.

Variable json_loads : string -> result json.
Variable format_event : string -> json -> string.
Variable format_raw_data : string -> json -> string.
Variable env : environment.
Variable config : PumpMonitorConfig.
Variable shutdown_handler : bool.

#[local] Abbreviation handle_sse_event :=
  (handle_sse_event format_event format_raw_data env config).
#[local] Abbreviation run_sse_monitor :=
  (run_sse_monitor json_loads format_event format_raw_data env config
     shutdown_handler).

(** X11. [_run_sse_monitor] keeps the statistics consistent: when
    [total_events] is the sum of the counts before a run, for instance
    for a fresh client, it is so after the run, however the run ends. *)
Theorem run_keeps_total_equal_to_sum (fuel : nat) (w : world) :
  total_events (stats w) = counted (stats w) ->
  total_events (stats (snd (run_sse_monitor fuel w)))
    = counted (stats (snd (run_sse_monitor fuel w))).
Proof.
  apply (follows_run_sse_monitor json_loads format_event format_raw_data
           env config shutdown_handler
           (fun a b => total_events (stats a) = counted (stats a) ->
                       total_events (stats b) = counted (stats b)));
    try (intros; assumption); try (intros ? ? H; exact H).
  - intros a b c Hab Hbc H. auto.
  - intros event_name data a H.
    rewrite handle_sse_event_effect. simpl.
    destruct (is_counted event_name); [|exact H].
    rewrite counted_add_event. simpl. lia.
Qed.


(** X13. Nothing in a run calls [update_connection_count]: the
    [connections] figure of the statistics summary is after the run
    what it was before, zero for a fresh client. *)
Theorem run_never_updates_connections (fuel : nat) (w : world) :
  connections (stats (snd (run_sse_monitor fuel w))) = connections (stats w).
Proof.
  apply (follows_run_sse_monitor json_loads format_event format_raw_data
           env config shutdown_handler
           (fun a b => connections (stats b) = connections (stats a)));
    try (intros; reflexivity).
  - intros a b c Hab Hbc. congruence.
  - intros event_name data a.
    rewrite handle_sse_event_effect. simpl.
    now destruct (is_counted event_name).
Qed.

(** X14. When [save_to_file] is off, a run writes nothing to the
    output file. *)
Theorem run_without_save_writes_nothing (fuel : nat) (w : world) :
  save_to_file config = false ->
  file (snd (run_sse_monitor fuel w)) = file w.
Proof.
  intros Hs.
  apply (follows_run_sse_monitor json_loads format_event format_raw_data
           env config shutdown_handler
           (fun a b => file b = file a));
    try (intros; reflexivity).
  - intros a b c Hab Hbc. congruence.
  - intros event_name data a.
    rewrite handle_sse_event_effect. simpl. unfold saved_by.
    rewrite Hs, andb_false_r. apply app_nil_r.
Qed.

End Run_properties.

Lemma run_keeps_total_equal_to_sum_witness :
  total_events
    (stats (snd (run_sse_monitor JsonRef.json_loads format_name format_name
                   (env_up ["event: trade"; trade_data_line; EmptyString])
                   config_default false 2 (world_init 999))))
  = counted
      (stats (snd (run_sse_monitor JsonRef.json_loads format_name format_name
                     (env_up ["event: trade"; trade_data_line; EmptyString])
                     config_default false 2 (world_init 999)))).
Proof.
  apply (run_keeps_total_equal_to_sum JsonRef.json_loads format_name
           format_name
           (env_up ["event: trade"; trade_data_line; EmptyString])
           config_default false 2 (world_init 999)).
  reflexivity.
Defined.

Lemma run_without_save_writes_nothing_witness :
  file (snd (run_sse_monitor JsonRef.json_loads format_name format_name
               (env_up ["event: trade"; trade_data_line; EmptyString])
               config_no_save false 2 (world_init 999)))
  = file (world_init 999).
Proof.
  apply (run_without_save_writes_nothing JsonRef.json_loads format_name
           format_name
           (env_up ["event: trade"; trade_data_line; EmptyString])
           config_no_save false 2 (world_init 999)).
  reflexivity.
Defined.

(** ** The checks made before an event is handled *)

Section Checks.

Variable format_event : string -> json -> string.
Variable format_raw_data : string -> json -> string.
Variable env : environment.
Variable config : PumpMonitorConfig.
Variable shutdown_handler : bool.

#[local] Abbreviation process_event :=
  (process_event format_event format_raw_data env config shutdown_handler).
#[local] Abbreviation shutdown_requested :=
  (shutdown_requested env shutdown_handler).

Lemma shutdown_not_requested (w : world) :
  fst (shutdown_requested w) = false ->
  ticks (snd (shutdown_requested w)) = ticks w
  /\ probes (snd (shutdown_requested w)) = probes w
  /\ client (snd (shutdown_requested w)) = client w
  /\ stats (snd (shutdown_requested w)) = stats w
  /\ file (snd (shutdown_requested w)) = file w
  /\ handled (snd (shutdown_requested w)) = handled w.
Proof. unfold shutdown_requested. now destruct shutdown_handler. Qed.

Lemma process_event_stale (event : sse_event) (t : Z) (w : world) :
  fst (shutdown_requested w) = false ->
  clock env (ticks w) - last_data_time (client w) > stream_timeout config ->
  process_event event t w =
    (Break, t,
     if quiet_mode config
     then next_tick (snd (shutdown_requested w))
     else add_console PrintStale (next_tick (snd (shutdown_requested w)))).
Proof.
  intros Hs Hstale.
  destruct (shutdown_not_requested w Hs) as (Ht & _ & Hc & _).
  unfold process_event, bind at 1.
  destruct (shutdown_requested w) as [stop w0]. simpl in *. subst stop.
  unfold bind at 1. rewrite is_connection_stale_eq.
  rewrite Ht, Hc.
  replace (clock env (ticks w) - last_data_time (client w)
           >? stream_timeout config) with true
    by (symmetry; apply Z.gtb_lt; lia).
  unfold bind, when, print, modify, ret.
  now destruct (quiet_mode config).
Qed.

(** X15. The staleness check comes before the event is handled: an
    event read when more than [stream_timeout] has passed since
    [last_data_time] is not handed to [handle_sse_event], does not
    refresh [last_data_time] and is not counted or saved; the loop over
    the stream is left for a new connection. *)
Theorem stale_stream_drops_event (event : sse_event) (t : Z) (w : world) :
  fst (shutdown_requested w) = false ->
  clock env (ticks w) - last_data_time (client w) > stream_timeout config ->
  fst (process_event event t w) = (Break, t)
  /\ handled (snd (process_event event t w)) = handled w
  /\ client (snd (process_event event t w)) = client w
  /\ stats (snd (process_event event t w)) = stats w
  /\ file (snd (process_event event t w)) = file w.
Proof.
  intros Hs Hstale.
  destruct (shutdown_not_requested w Hs) as (_ & _ & Hc & Hst & Hf & Hh).
  rewrite (process_event_stale event t w Hs Hstale).
  destruct (quiet_mode config); simpl; repeat split; assumption.
Qed.

Lemma process_event_failed_probe (event : sse_event) (t stamp : Z)
    (w : world) :
  fst (shutdown_requested w) = false ->
  clock env (ticks w) - last_data_time (client w) <= stream_timeout config ->
  last_health_check (client w) = Some stamp ->
  stamp <> 0 ->
  clock env (S (ticks w)) - stamp > health_check_interval config ->
  probe_result env (probes w) = false ->
  process_event event t w =
    (Break, t,
     if quiet_mode config
     then next_probe (next_tick (next_tick (snd (shutdown_requested w))))
     else add_console PrintHealthCheckFailed
            (next_probe (next_tick (next_tick (snd (shutdown_requested w)))))).
Proof.
  intros Hs Hfresh Hlast Hne Hdue Hprobe.
  destruct (shutdown_not_requested w Hs) as (Ht & Hp & Hc & _).
  unfold process_event, bind at 1.
  destruct (shutdown_requested w) as [stop w0]. simpl in *. subst stop.
  unfold bind at 1. rewrite is_connection_stale_eq.
  rewrite Ht, Hc.
  replace (clock env (ticks w) - last_data_time (client w)
           >? stream_timeout config) with false
    by (symmetry; rewrite Z.gtb_ltb; apply Z.ltb_ge; lia).
  unfold bind at 1. rewrite needs_health_check_eq. simpl.
  rewrite Hc, Hlast.
  replace (stamp =? 0) with false by (symmetry; now apply Z.eqb_neq).
  rewrite Ht.
  replace (clock env (S (ticks w)) - stamp >? health_check_interval config)
    with true by (symmetry; apply Z.gtb_lt; lia).
  unfold bind at 1, perform_health_check, bind at 1. simpl.
  rewrite Hp, Hprobe.
  unfold bind, when, print, modify, ret.
  now destruct (quiet_mode config).
Qed.

(** X16. When a health check is due and the probe fails, the event at
    hand is not handed to [handle_sse_event] either, the time stamp of
    the last health check stays as it was, and the loop over the stream
    is left for a new connection. *)
Theorem failed_probe_drops_event (event : sse_event) (t stamp : Z)
    (w : world) :
  fst (shutdown_requested w) = false ->
  clock env (ticks w) - last_data_time (client w) <= stream_timeout config ->
  last_health_check (client w) = Some stamp ->
  stamp <> 0 ->
  clock env (S (ticks w)) - stamp > health_check_interval config ->
  probe_result env (probes w) = false ->
  fst (process_event event t w) = (Break, t)
  /\ handled (snd (process_event event t w)) = handled w
  /\ client (snd (process_event event t w)) = client w
  /\ stats (snd (process_event event t w)) = stats w
  /\ file (snd (process_event event t w)) = file w.
Proof.
  intros Hs Hfresh Hlast Hne Hdue Hprobe.
  destruct (shutdown_not_requested w Hs) as (_ & _ & Hc & Hst & Hf & Hh).
  rewrite (process_event_failed_probe event t stamp w Hs Hfresh Hlast Hne
             Hdue Hprobe).
  destruct (quiet_mode config); simpl; repeat split; assumption.
Qed.

End Checks.

Lemma stale_stream_drops_event_witness :
  fst (process_event format_name format_name (env_slow []) config_default
         false (new_event "trade") 1000
         (next_tick (world_init 999)))
  = (Break, 1000)
  /\ handled (snd (process_event format_name format_name (env_slow [])
                     config_default false (new_event "trade") 1000
                     (next_tick (world_init 999))))
     = handled (next_tick (world_init 999))
  /\ client (snd (process_event format_name format_name (env_slow [])
                    config_default false (new_event "trade") 1000
                    (next_tick (world_init 999))))
     = client (next_tick (world_init 999))
  /\ stats (snd (process_event format_name format_name (env_slow [])
                   config_default false (new_event "trade") 1000
                   (next_tick (world_init 999))))
     = stats (next_tick (world_init 999))
  /\ file (snd (process_event format_name format_name (env_slow [])
                  config_default false (new_event "trade") 1000
                  (next_tick (world_init 999))))
     = file (next_tick (world_init 999)).
Proof.
  apply (stale_stream_drops_event format_name format_name (env_slow [])
           config_default false (new_event "trade") 1000
           (next_tick (world_init 999))).
  - reflexivity.
  - vm_compute. reflexivity.
Defined.

Lemma failed_probe_drops_event_witness :
  fst (process_event format_name format_name env_down config_default false
         (new_event "trade") 1000 world_probe_due)
  = (Break, 1000)
  /\ handled (snd (process_event format_name format_name env_down
                     config_default false (new_event "trade") 1000
                     world_probe_due))
     = handled world_probe_due
  /\ client (snd (process_event format_name format_name env_down
                    config_default false (new_event "trade") 1000
                    world_probe_due))
     = client world_probe_due
  /\ stats (snd (process_event format_name format_name env_down
                   config_default false (new_event "trade") 1000
                   world_probe_due))
     = stats world_probe_due
  /\ file (snd (process_event format_name format_name env_down
                  config_default false (new_event "trade") 1000
                  world_probe_due))
     = file world_probe_due.
Proof.
  apply (failed_probe_drops_event format_name format_name env_down
           config_default false (new_event "trade") 1000 500
           world_probe_due).
  - reflexivity.
  - vm_compute. discriminate.
  - reflexivity.
  - discriminate.
  - vm_compute. reflexivity.
  - reflexivity.
Defined.

(** ** Probes and connections *)

Section Liveness.

Variable env : environment.
Variable config : PumpMonitorConfig.

#[local] Abbreviation perform_health_check := (perform_health_check env).
#[local] Abbreviation needs_health_check := (needs_health_check env config).
#[local] Abbreviation connect_stream := (connect_stream env).
#[local] Abbreviation is_connection_stale := (is_connection_stale env config).

Lemma perform_health_check_eq (w : world) :
  perform_health_check w =
    if probe_result env (probes w)
    then (true,
          set_client
            (set_last_health_check (Some (clock env (ticks w))) (client w))
            (next_tick (next_probe w)))
    else (false, next_probe w).
Proof.
  unfold perform_health_check, bind, update_client, modify, time_time, ret.
  now destruct (probe_result env (probes w)).
Qed.

(** X17. [perform_health_check] returns the outcome of the probe.  A
    failed probe leaves the client as it was, so the check stays due;
    a successful probe records the current time, after which
    [needs_health_check] is true only when more than
    [health_check_interval] separates the next clock reading from that
    time (or the clock read zero at the probe). *)
Theorem probe_restarts_health_timer (w : world) :
  fst (perform_health_check w) = probe_result env (probes w)
  /\ client (snd (perform_health_check w))
     = (if probe_result env (probes w)
        then set_last_health_check (Some (clock env (ticks w))) (client w)
        else client w)
  /\ fst (needs_health_check (snd (perform_health_check w)))
     = (if probe_result env (probes w)
        then (clock env (ticks w) =? 0)
             || (clock env (S (ticks w)) - clock env (ticks w)
                 >? health_check_interval config)
        else fst (needs_health_check w)).
Proof.
  rewrite perform_health_check_eq, !needs_health_check_eq.
  destruct (probe_result env (probes w)); simpl.
  - repeat split. now destruct (clock env (ticks w) =? 0).
  - repeat split.
    destruct (last_health_check (client w)) as [t|]; [|reflexivity].
    now destruct (t =? 0).
Qed.

(** X18. A failed [connect_stream] clears [connected] and leaves the
    connection id and both time stamps as they were, without reading
    the clock.  A successful one keeps the connection id of the
    previous connection, and the staleness check that follows it is
    true exactly when more than [stream_timeout] separates the next
    clock reading from the time of the connection. *)
Theorem reconnect_keeps_id_and_restarts_timers (w : world) :
  client (snd (connect_stream w))
    = match connect_result env (connects w) with
      | Some _ =>
          {| connection_id := connection_id (client w);
             last_data_time := clock env (ticks w);
             last_health_check := Some (clock env (ticks w));
             connected := true |}
      | None => set_connected false (client w)
      end
  /\ ticks (snd (connect_stream w))
     = match connect_result env (connects w) with
       | Some _ => S (ticks w)
       | None => ticks w
       end
  /\ fst (is_connection_stale (snd (connect_stream w)))
     = match connect_result env (connects w) with
       | Some _ =>
           clock env (S (ticks w)) - clock env (ticks w)
           >? stream_timeout config
       | None =>
           clock env (ticks w) - last_data_time (client w)
           >? stream_timeout config
       end.
Proof.
  destruct (connect_result env (connects w)) as [body|] eqn:E.
  - rewrite (connect_stream_success env w body E). now repeat split.
  - rewrite (connect_stream_failure env w E). now repeat split.
Qed.

End Liveness.

(** ** The configuration *)

Lemma rstrip_keeps_first (c : ascii) (r : string) :
  PyStr.isspace c = false -> PyStr.truthy (PyStr.rstrip (String c r)) = true.
Proof.
  intros H. simpl. destruct (PyStr.rstrip r); [now rewrite H | reflexivity].
Qed.

(** A string that starts with a character other than whitespace is not
    blank. *)
Lemma startswith_not_blank (c : ascii) (p s : string) :
  PyStr.isspace c = false ->
  PyStr.startswith (String c p) s = true ->
  PyStr.truthy (PyStr.strip s) = true.
Proof.
  unfold PyStr.startswith. intros Hc H.
  destruct s as [|a s]; simpl in H; [discriminate|].
  destruct (ascii_dec c a) as [<-|]; [|discriminate].
  unfold PyStr.strip. simpl PyStr.lstrip. rewrite Hc.
  now apply rstrip_keeps_first.
Qed.

Lemma url_with_scheme_not_blank (url : string) :
  PyStr.startswith "http://" url || PyStr.startswith "https://" url = true ->
  PyStr.truthy (PyStr.strip url) = true.
Proof.
  intros H. apply orb_true_iff in H as [H|H];
    now apply (startswith_not_blank "h" _ url) in H.
Qed.

Lemma endpoint_listed (name : string) :
  existsb (String.eqb name) valid_endpoints = true <-> In name valid_endpoints.
Proof.
  rewrite existsb_exists. split.
  - intros (x & Hin & He). apply String.eqb_eq in He. now subst.
  - intros Hin. exists name. split; [exact Hin | apply String.eqb_refl].
Qed.

(** X19. [is_valid] holds exactly when the token is not blank, the
    server URL starts with [http://] or [https://], the endpoint is one
    of the six listed and the connection timeout is at least 5: the two
    messages worded as warnings make a configuration invalid like the
    errors.  And a blank server URL is always reported twice, as empty
    and as lacking the scheme. *)
Theorem valid_iff_all_checks_pass (c : ConfigFields) :
  (is_valid c = true <->
   PyStr.truthy (PyStr.strip (api_token c)) = true
   /\ PyStr.startswith "http://" (server_url c)
      || PyStr.startswith "https://" (server_url c) = true
   /\ In (endpoint c) valid_endpoints
   /\ 5 <= connection_timeout c)
  /\ (In ServerUrlEmpty (validate c) -> In ServerUrlScheme (validate c)).
Proof.
  pose proof (url_with_scheme_not_blank (server_url c)) as Hurl.
  pose proof (endpoint_listed (endpoint c)) as Hend.
  unfold is_valid, validate.
  destruct (PyStr.truthy (PyStr.strip (server_url c)));
    destruct (PyStr.startswith "http://" (server_url c)
              || PyStr.startswith "https://" (server_url c));
    try (specialize (Hurl eq_refl); discriminate Hurl);
    clear Hurl;
    destruct (PyStr.truthy (PyStr.strip (api_token c)));
    destruct (existsb (String.eqb (endpoint c)) valid_endpoints);
    destruct (Z.ltb_spec (connection_timeout c) 5);
    simpl; (split; [|intuition discriminate]);
    first
      [ split;
        [ intros _; repeat split;
          first [reflexivity | lia | apply Hend; reflexivity]
        | intros _; reflexivity ]
      | split;
        [ intros D; discriminate D
        | intros (H1 & H3 & H4 & H5);
          first [ discriminate H1 | discriminate H3 | lia
                | apply Hend in H4; discriminate H4 ] ] ].
Qed.

Lemma has_char_app (a : ascii) (s1 s2 : string) :
  has_char a (s1 ++ s2) = has_char a s1 || has_char a s2.
Proof.
  induction s1 as [|c s1 IH]; [reflexivity|].
  change (has_char a (String c (s1 ++ s2))
          = has_char a (String c s1) || has_char a s2).
  simpl. now rewrite IH, orb_assoc.
Qed.

Lemma replace_char_removes (a b : ascii) (s : string) :
  a <> b -> has_char a (replace_char a b s) = false.
Proof.
  intros ne. induction s as [|c s IH]; [reflexivity|].
  simpl. rewrite IH, orb_false_r.
  destruct (Ascii.eqb_spec c a) as [->|nc].
  - apply Ascii.eqb_neq. congruence.
  - now apply Ascii.eqb_neq.
Qed.

(** X20. [__post_init__] keeps an output file name that was given.
    When none was given it builds the name from the endpoint, and the
    name built contains no [/], so the file lies in the current
    directory whatever the endpoint; running it twice changes nothing
    more. *)
Theorem generated_file_name_has_no_slash (c : ConfigFields) :
  (forall name, output_file c = Some name -> post_init c = c)
  /\ (output_file c = None ->
      output_file (post_init c)
        = Some ("pump_data_" ++ replace_char "/" "_" (endpoint c) ++ ".jsonl")
      /\ has_char "/"
           ("pump_data_" ++ replace_char "/" "_" (endpoint c) ++ ".jsonl")
         = false)
  /\ post_init (post_init c) = post_init c.
Proof.
  split; [|split].
  - intros name H. unfold post_init. now rewrite H.
  - intros H. unfold post_init. rewrite H. split; [reflexivity|].
    rewrite !has_char_app, replace_char_removes by discriminate.
    reflexivity.
  - unfold post_init. destruct (output_file c) eqn:H; [now rewrite H|].
    reflexivity.
Qed.

(** X21. [create_config_from_args] builds the configuration before it
    assigns the options, so the name of the output file does not follow
    the endpoint chosen on the command line: it is the name given with
    the output file option, or [pump_data_all.jsonl].  [quick_start]
    passes the endpoint to the constructor, and its file name follows
    the endpoint. *)
Theorem command_line_endpoint_keeps_file_name (args : arguments) :
  output_file (fst (create_config_from_args args))
    = Some (default "pump_data_all.jsonl" (given (arg_output_file args)))
  /\ endpoint (fst (create_config_from_args args))
     = default "all" (given (arg_endpoint args))
  /\ (forall (token endpoint_name : string) (quiet : bool),
        output_file (fst (quick_start_config token endpoint_name quiet))
          = Some ("pump_data_" ++ replace_char "/" "_" endpoint_name
                  ++ ".jsonl")).
Proof.
  split; [|split].
  - simpl. now destruct (given (arg_output_file args)).
  - reflexivity.
  - reflexivity.
Qed.

(** X22. A health request that fails makes [check_server_health]
    return false.  When the body arrives, the check passes in quiet
    mode whatever the body is; outside quiet mode it passes only when
    the body is an object whose [connections] entry, if present, is an
    object too, since the body is read only to print the status. *)
Theorem health_check_depends_on_quiet_mode (config : PumpMonitorConfig) :
  fst (check_server_health config None) = false
  /\ (forall body : json,
        fst (check_server_health config (Some body)) = true <->
        quiet_mode config = true
        \/ (exists members,
              body = JObj members
              /\ match PyDict.get "connections" members with
                 | None | Some (JObj _) => True
                 | Some _ => False
                 end)).
Proof.
  split; [reflexivity|].
  intros body. unfold check_server_health.
  destruct (quiet_mode config); [now split; [left|]|].
  split.
  - intros H. right.
    destruct body as [| | | | | |members]; try discriminate.
    exists members. split; [reflexivity|].
    destruct (PyDict.get "connections" members) as [[]|];
      simpl in H; try discriminate; exact I.
  - intros [?|(members & -> & H)]; [discriminate|].
    destruct (PyDict.get "connections" members) as [[]|];
      try contradiction; reflexivity.
Qed.

Lemma generated_file_name_has_no_slash_witness :
  output_file (post_init fields_default) = Some "pump_data_all.jsonl"
  /\ has_char "/" "pump_data_all.jsonl" = false.
Proof.
  apply (proj1 (proj2 (generated_file_name_has_no_slash fields_default))).
  reflexivity.
Defined.
